(** * Watch.cpp: 8x8 LED matrix driver with bit angle modulation

    A shallow embedding of the Adafruit watch display driver
    (src/Watch.cpp): the pixel encoder [drawPixel], the refresh
    interrupt [TIMER1_COMPA], the deferred buffer swap [swapBuffers] and
    the button interrupts [INT0] and [TIMER2_OVF].

    The file-scope statics of Watch.cpp and the few AVR registers the
    code touches are the fields of one [state] record.  The heap block
    allocated by the constructor is a list of bytes; [img0] and [img1]
    are the offsets of the two image buffers inside it, so that the
    single-buffered mode (both pointers equal) aliases as in the source. *)

From Stdlib Require Import ZArith Lia Bool List.
From stdpp Require Import base list numbers.

Local Open Scope Z_scope.

(** ** Constants *)

(** [#define PORTB_OFF B11001010] and friends. *)
Definition PORTB_OFF : Z := 0xCA.
Definition PORTC_OFF : Z := 0x33.
Definition PORTD_OFF : Z := 0xCC.

Definition OVERHEAD : Z := 53.
Definition LEDMINTIME : Z := 60.

(** Bit numbers from the AVR headers. *)
Definition PORTD2 : Z := 2.
Definition PORTD3 : Z := 3.
Definition TOIE2 : Z := 0.
Definition _BV (n : Z) : Z := Z.shiftl 1 n.

(** [3 * 8 * 8]: 3 bytes/row * 8 rows * 8 planes. *)
Definition bufSize : Z := 3 * 8 * 8.

(** The drawing tables, indexed by x. *)
Definition rowBitPortB : list Z := [0; 0x20; 0; 0x10; 0x04; 0; 0x01; 0].
Definition rowBitPortC : list Z := [0; 0; 0x08; 0; 0; 0x04; 0; 0].
Definition rowBitPortD : list Z := [0x10; 0; 0; 0; 0; 0; 0; 0x20].

(** Modelled from the spec: the ACTION_* codes of Watch.h, which is not
    part of the sources; the spec lists them as
    None, TapLeft, TapRight, HoldLeft, HoldRight, HoldBoth. *)
Inductive action : Set :=
  | ACTION_NONE
  | ACTION_TAP_LEFT
  | ACTION_TAP_RIGHT
  | ACTION_HOLD_LEFT
  | ACTION_HOLD_RIGHT
  | ACTION_HOLD_BOTH.

(** ** Machine integers *)

Definition u8 (z : Z) : Z := z mod 256.
Definition u16 (z : Z) : Z := z mod 65536.

(** [a |= m] and [a &= ~m] on a [uint8_t] lvalue. *)
Definition or8 (a m : Z) : Z := u8 (Z.lor a m).
Definition andnot8 (a m : Z) : Z := u8 (Z.land a (Z.lnot m)).

(** ** Byte memory *)

Definition load (m : list Z) (a : Z) : Z := m !!! Z.to_nat a.
Definition store (m : list Z) (a : Z) (v : Z) : list Z := <[Z.to_nat a := v]> m.

(** [memcpy(dst, src, n)] inside one block. *)
Definition memcpy (dst src n : Z) (m : list Z) : list Z :=
  take (Z.to_nat dst) m
    ++ take (Z.to_nat n) (drop (Z.to_nat src) m)
    ++ drop (Z.to_nat (dst + n)) m.

(** The [bufSize] bytes of the image that starts at offset [base]. *)
Definition buffer (m : list Z) (base : Z) : list Z :=
  take (Z.to_nat bufSize) (drop (Z.to_nat base) m).

(** ** Program state *)

Record state : Type := mkState {
  mem      : list Z;   (* the malloc'ed block *)
  img0     : Z;        (* img[0], offset into mem *)
  img1     : Z;        (* img[1], offset into mem *)
  plane    : Z;
  col      : Z;
  ptr      : Z;        (* current pointer into front buffer *)
  frontIdx : Z;        (* buffer # being displayed *)
  bSave    : Z;        (* last button state *)
  bCount   : Z;        (* Timer2 overflow counter *)
  bAction  : action;   (* last button action *)
  swapFlag : bool;
  frames   : Z;        (* for delay() counter *)
  PORTB    : Z;
  PORTC    : Z;
  PORTD    : Z;
  OCR1A    : Z;
  TCNT1    : Z;
  TCNT2    : Z;
  TIMSK2   : Z
}.

(** Field updates.  They match on the record, so that an update of a
    state that is not yet known stays as it is written. *)
Definition set_mem v (s : state) : state :=
  let '(mkState _ i0 i1 pl c p fi bs bc ba sf fr pb pc pd oc t1 t2 tk) := s in
  mkState v i0 i1 pl c p fi bs bc ba sf fr pb pc pd oc t1 t2 tk.
Definition set_plane v (s : state) : state :=
  let '(mkState m i0 i1 _ c p fi bs bc ba sf fr pb pc pd oc t1 t2 tk) := s in
  mkState m i0 i1 v c p fi bs bc ba sf fr pb pc pd oc t1 t2 tk.
Definition set_col v (s : state) : state :=
  let '(mkState m i0 i1 pl _ p fi bs bc ba sf fr pb pc pd oc t1 t2 tk) := s in
  mkState m i0 i1 pl v p fi bs bc ba sf fr pb pc pd oc t1 t2 tk.
Definition set_ptr v (s : state) : state :=
  let '(mkState m i0 i1 pl c _ fi bs bc ba sf fr pb pc pd oc t1 t2 tk) := s in
  mkState m i0 i1 pl c v fi bs bc ba sf fr pb pc pd oc t1 t2 tk.
Definition set_frontIdx v (s : state) : state :=
  let '(mkState m i0 i1 pl c p _ bs bc ba sf fr pb pc pd oc t1 t2 tk) := s in
  mkState m i0 i1 pl c p v bs bc ba sf fr pb pc pd oc t1 t2 tk.
Definition set_bSave v (s : state) : state :=
  let '(mkState m i0 i1 pl c p fi _ bc ba sf fr pb pc pd oc t1 t2 tk) := s in
  mkState m i0 i1 pl c p fi v bc ba sf fr pb pc pd oc t1 t2 tk.
Definition set_bCount v (s : state) : state :=
  let '(mkState m i0 i1 pl c p fi bs _ ba sf fr pb pc pd oc t1 t2 tk) := s in
  mkState m i0 i1 pl c p fi bs v ba sf fr pb pc pd oc t1 t2 tk.
Definition set_bAction v (s : state) : state :=
  let '(mkState m i0 i1 pl c p fi bs bc _ sf fr pb pc pd oc t1 t2 tk) := s in
  mkState m i0 i1 pl c p fi bs bc v sf fr pb pc pd oc t1 t2 tk.
Definition set_swapFlag v (s : state) : state :=
  let '(mkState m i0 i1 pl c p fi bs bc ba _ fr pb pc pd oc t1 t2 tk) := s in
  mkState m i0 i1 pl c p fi bs bc ba v fr pb pc pd oc t1 t2 tk.
Definition set_frames v (s : state) : state :=
  let '(mkState m i0 i1 pl c p fi bs bc ba sf _ pb pc pd oc t1 t2 tk) := s in
  mkState m i0 i1 pl c p fi bs bc ba sf v pb pc pd oc t1 t2 tk.
Definition set_PORTB v (s : state) : state :=
  let '(mkState m i0 i1 pl c p fi bs bc ba sf fr _ pc pd oc t1 t2 tk) := s in
  mkState m i0 i1 pl c p fi bs bc ba sf fr v pc pd oc t1 t2 tk.
Definition set_PORTC v (s : state) : state :=
  let '(mkState m i0 i1 pl c p fi bs bc ba sf fr pb _ pd oc t1 t2 tk) := s in
  mkState m i0 i1 pl c p fi bs bc ba sf fr pb v pd oc t1 t2 tk.
Definition set_PORTD v (s : state) : state :=
  let '(mkState m i0 i1 pl c p fi bs bc ba sf fr pb pc _ oc t1 t2 tk) := s in
  mkState m i0 i1 pl c p fi bs bc ba sf fr pb pc v oc t1 t2 tk.
Definition set_OCR1A v (s : state) : state :=
  let '(mkState m i0 i1 pl c p fi bs bc ba sf fr pb pc pd _ t1 t2 tk) := s in
  mkState m i0 i1 pl c p fi bs bc ba sf fr pb pc pd v t1 t2 tk.
Definition set_TCNT1 v (s : state) : state :=
  let '(mkState m i0 i1 pl c p fi bs bc ba sf fr pb pc pd oc _ t2 tk) := s in
  mkState m i0 i1 pl c p fi bs bc ba sf fr pb pc pd oc v t2 tk.
Definition set_TCNT2 v (s : state) : state :=
  let '(mkState m i0 i1 pl c p fi bs bc ba sf fr pb pc pd oc t1 _ tk) := s in
  mkState m i0 i1 pl c p fi bs bc ba sf fr pb pc pd oc t1 v tk.
Definition set_TIMSK2 v (s : state) : state :=
  let '(mkState m i0 i1 pl c p fi bs bc ba sf fr pb pc pd oc t1 t2 _) := s in
  mkState m i0 i1 pl c p fi bs bc ba sf fr pb pc pd oc t1 t2 v.

(** [img[i]] for i in {0,1}. *)
Definition img (s : state) (i : Z) : Z :=
  if i =? 0 then img0 s else img1 s.

(** ** Constructor and begin() *)

(** The initialisation loop
    [for(uint8_t i=0; i<bufSize;) { ptr[i++] = ...; ptr[i++] = ...; ptr[i++] = ...; }]. *)
Fixpoint init_loop (fuel : nat) (base i : Z) (m : list Z) : list Z :=
  match fuel with
  | O => m
  | S fuel' =>
      if i <? bufSize then
        let m := store m (base + i) PORTB_OFF in
        let i := u8 (i + 1) in
        let m := store m (base + i) PORTC_OFF in
        let i := u8 (i + 1) in
        let m := store m (base + i) PORTD_OFF in
        let i := u8 (i + 1) in
        init_loop fuel' base i m
      else m
  end.

(** [Watch::Watch(dbuf)] when malloc succeeds.  The statics carry the
    initialisers of their declarations; registers start at zero. *)
Definition Watch (dbuf : bool) : state :=
  let allocSize := if dbuf then bufSize * 2 else bufSize in
  let m := replicate (Z.to_nat allocSize) 0 in
  let m := init_loop 65 0 0 m in
  let m := if dbuf then memcpy bufSize 0 bufSize m else m in
  {| mem := m; img0 := 0; img1 := if dbuf then bufSize else 0;
     plane := 7; col := 7; ptr := 0; frontIdx := 0;
     bSave := 0; bCount := 0; bAction := ACTION_NONE;
     swapFlag := false; frames := 0;
     PORTB := 0; PORTC := 0; PORTD := 0;
     OCR1A := 0; TCNT1 := 0; TCNT2 := 0; TIMSK2 := 0 |}.

(** [Watch::begin()], restricted to the registers of the model. *)
Definition begin (s : state) : state :=
  let s := set_PORTB PORTB_OFF s in
  let s := set_PORTC PORTC_OFF s in
  let s := set_PORTD PORTD_OFF s in
  let s := set_OCR1A 100 s in
  set_bSave (Z.lor (_BV PORTD3) (_BV PORTD2)) s.

(** ** Pixel encoder *)

(** One pass of the body of the [for] loop in drawPixel. *)
Definition plane_write (on : bool) (p bmask cmask dmask : Z) (m : list Z) : list Z :=
  if on then
    let m := store m p (or8 (load m p) bmask) in
    let m := store m (p + 1) (or8 (load m (p + 1)) cmask) in
    store m (p + 2) (or8 (load m (p + 2)) dmask)
  else
    let m := store m p (andnot8 (load m p) bmask) in
    let m := store m (p + 1) (andnot8 (load m (p + 1)) cmask) in
    store m (p + 2) (andnot8 (load m (p + 2)) dmask).

(** [for(uint8_t bit = 1; bit; bit <<= 1) { ...; p += 24; }] *)
Fixpoint drawPixel_loop (fuel : nat) (bit p bmask cmask dmask c8 : Z)
    (m : list Z) : list Z :=
  match fuel with
  | O => m
  | S fuel' =>
      if bit =? 0 then m
      else
        let m := plane_write (negb (Z.land c8 bit =? 0)) p bmask cmask dmask m in
        drawPixel_loop fuel' (u8 (Z.shiftl bit 1)) (p + 24) bmask cmask dmask c8 m
  end.

(** [void Watch::drawPixel(int16_t x, int16_t y, uint16_t c)] *)
Definition drawPixel (x y c : Z) (s : state) : state :=
  if (0 <=? x) && (0 <=? y) && (x <? 8) && (y <? 8) then
    let bmask := rowBitPortB !!! Z.to_nat x in
    let cmask := rowBitPortC !!! Z.to_nat x in
    let dmask := rowBitPortD !!! Z.to_nat x in
    let c8 := u8 c in
    let p := img s (1 - frontIdx s) + y * 3 in
    set_mem (drawPixel_loop 9 1 p bmask cmask dmask c8 (mem s)) s
  else s.

(** [uint8_t *Watch::backBuffer()] *)
Definition backBuffer (s : state) : Z := img s (1 - frontIdx s).

(** ** Refresh interrupt *)

Inductive port : Set := PB | PC | PD.

Definition sbi (pt : port) (bit : Z) (s : state) : state :=
  match pt with
  | PB => set_PORTB (Z.setbit (PORTB s) bit) s
  | PC => set_PORTC (Z.setbit (PORTC s) bit) s
  | PD => set_PORTD (Z.setbit (PORTD s) bit) s
  end.

Definition cbi (pt : port) (bit : Z) (s : state) : state :=
  match pt with
  | PB => set_PORTB (Z.clearbit (PORTB s) bit) s
  | PC => set_PORTC (Z.clearbit (PORTC s) bit) s
  | PD => set_PORTD (Z.clearbit (PORTD s) bit) s
  end.

(** Turn prior column off, then load new row bits on all 3 PORTs. *)
Definition COLSTART (pt : port) (bit idx p : Z) (s : state) : state :=
  let s := sbi pt bit s in
  let s := set_PORTB (load (mem s) (p + idx)) s in
  let s := set_PORTC (load (mem s) (p + idx + 1)) s in
  set_PORTD (load (mem s) (p + idx + 2)) s.

(** Advance [col] to the next column, then enable the column loaded above. *)
Definition COLEND (pt : port) (bit nxt : Z) (s : state) : state :=
  cbi pt bit (set_col nxt s).

(** The body of [case 7]: advance the plane counter. *)
Definition advance_plane (s : state) : state :=
  let s := set_plane (u8 (plane s + 1)) s in
  if 8 <=? plane s then
    let s := set_plane 0 s in
    let s :=
      if swapFlag s then set_swapFlag false (set_frontIdx (u8 (Z.lxor (frontIdx s) 1)) s)
      else s in
    let s := set_ptr (img s (frontIdx s)) s in
    set_frames (u16 (frames s + 1)) s
  else set_ptr (ptr s + 24) s.

(** [ISR(TIMER1_COMPA_vect, ISR_BLOCK)] *)
Definition TIMER1_COMPA (s : state) : state :=
  let p := ptr s in
  let s :=
    match col s with
    | 0 =>
        let s := COLSTART PD 7 0 p s in
        let s := set_OCR1A (u16 (Z.shiftl LEDMINTIME (plane s) - OVERHEAD)) s in
        COLEND PD 6 4 s
    | 1 => COLEND PB 6 5 (COLSTART PB 3 3 p s)
    | 2 => COLEND PC 1 6 (COLSTART PC 0 6 p s)
    | 3 => COLEND PB 1 7 (COLSTART PB 7 9 p s)
    | 4 => COLEND PC 0 2 (COLSTART PD 6 12 p s)
    | 5 => COLEND PB 7 3 (COLSTART PB 6 15 p s)
    | 6 => COLEND PB 3 1 (COLSTART PC 1 18 p s)
    | 7 => COLEND PD 7 0 (advance_plane (COLSTART PB 1 21 p s))
    | _ => s
    end in
  set_TCNT1 0 s.

(** ** Buttons *)

(** [uint8_t Watch::action(void)]: the value returned and the new state. *)
Definition action_poll (s : state) : action * state :=
  (bAction s, set_bAction ACTION_NONE s).

(** [ISR(INT0_vect)], with the value read from [PIND] as an argument. *)
Definition INT0 (pind : Z) (s : state) : state :=
  let b := Z.land pind (Z.lor (_BV PORTD3) (_BV PORTD2)) in
  if b =? Z.lor (_BV PORTD3) (_BV PORTD2) then
    let s := set_TIMSK2 (andnot8 (TIMSK2 s) (_BV TOIE2)) s in
    let s :=
      if 2 <? bCount s then
        if bSave s =? _BV PORTD3 then set_bAction ACTION_TAP_LEFT s
        else if bSave s =? _BV PORTD2 then set_bAction ACTION_TAP_RIGHT s
        else s
      else s in
    set_bSave b s
  else if b =? bSave s then s
  else
    let s := set_TCNT2 0 (set_bCount 0 s) in
    let s := set_TIMSK2 (or8 (TIMSK2 s) (_BV TOIE2)) s in
    set_bSave b s.

(** [ISR(TIMER2_OVF_vect)] *)
Definition TIMER2_OVF (s : state) : state :=
  if 76 <=? bCount s then
    let s := set_TIMSK2 (andnot8 (TIMSK2 s) (_BV TOIE2)) s in
    let s :=
      if bSave s =? _BV PORTD3 then set_bAction ACTION_HOLD_LEFT s
      else if bSave s =? _BV PORTD2 then set_bAction ACTION_HOLD_RIGHT s
      else if bSave s =? 0 then set_bAction ACTION_HOLD_BOTH s
      else s in
    set_bSave 0 (set_bCount 0 s)
  else set_bCount (u8 (bCount s + 1)) s.

(** ** Interrupts as events *)

(** The three interrupt sources.  [IrqInt0] carries the value of [PIND]
    at the time of the edge (INT1 is an alias of INT0). *)
Inductive interrupt : Type :=
  | IrqTimer1
  | IrqInt0 (pind : Z)
  | IrqTimer2.

(** The Timer2 overflow interrupt is masked by bit [TOIE2] of [TIMSK2]. *)
Definition timer2_enabled (s : state) : bool := Z.testbit (TIMSK2 s) TOIE2.

Definition fire (e : interrupt) (s : state) : state :=
  match e with
  | IrqTimer1 => TIMER1_COMPA s
  | IrqInt0 pind => INT0 pind s
  | IrqTimer2 => if timer2_enabled s then TIMER2_OVF s else s
  end.

(** The same interrupt [n] times in a row. *)
Fixpoint repeat_fire (n : nat) (e : interrupt) (s : state) : state :=
  match n with
  | O => s
  | S n' => repeat_fire n' e (fire e s)
  end.

(** [n] overflows of Timer2. *)
Definition ticks (n : nat) (s : state) : state := repeat_fire n IrqTimer2 s.

(** [n] fires of the refresh interrupt. *)
Definition refresh (n : nat) (s : state) : state := repeat_fire n IrqTimer1 s.

(** ** Buffer swap *)

(** The busy wait [for(...; swapFlag; );] against the interrupts that
    arrive while the application spins; [None] when the interrupts
    given run out before the flag is seen clear. *)
Fixpoint swap_wait (evs : list interrupt) (s : state) : option state :=
  if swapFlag s then
    match evs with
    | [] => None
    | e :: evs' => swap_wait evs' (fire e s)
    end
  else Some s.

(** [void Watch::swapBuffers(boolean copy)] *)
Definition swapBuffers (copy : bool) (evs : list interrupt) (s : state)
    : option state :=
  match swap_wait evs (set_swapFlag true s) with
  | Some s =>
      Some (if copy
            then set_mem (memcpy (img s (1 - frontIdx s)) (img s (frontIdx s))
                            bufSize (mem s)) s
            else s)
  | None => None
  end.

(** ** Observations used by the properties *)

(** The front and the back image as byte lists. *)
Definition front_buffer (s : state) : list Z := buffer (mem s) (img s (frontIdx s)).
Definition back_buffer (s : state) : list Z := buffer (mem s) (img s (1 - frontIdx s)).

(** The mask of pixel column [x] on drive group [j] (0 = PORTB, 1 = PORTC,
    2 = PORTD). *)
Definition rowBit (j : Z) (x : Z) : Z :=
  match j with
  | 0 => rowBitPortB !!! Z.to_nat x
  | 1 => rowBitPortC !!! Z.to_nat x
  | _ => rowBitPortD !!! Z.to_nat x
  end.

(** State of the drive line of pixel (x,y) in the plane-k bytes of the
    image at [base]. *)
Definition pixel_bit (m : list Z) (base x y k : Z) : bool :=
  let p := base + y * 3 + 24 * k in
  negb (Z.land (load m p) (rowBit 0 x) =? 0)
  || negb (Z.land (load m (p + 1)) (rowBit 1 x) =? 0)
  || negb (Z.land (load m (p + 2)) (rowBit 2 x) =? 0).

(** The 8-bit number whose bit k is [f k]. *)
Definition bits8 (f : Z -> bool) : Z :=
  Z.b2z (f 0) + 2 * Z.b2z (f 1) + 4 * Z.b2z (f 2) + 8 * Z.b2z (f 3)
  + 16 * Z.b2z (f 4) + 32 * Z.b2z (f 5) + 64 * Z.b2z (f 6) + 128 * Z.b2z (f 7).

(** The intensity encoded for pixel (x,y) in the image at [base]. *)
Definition intensity (m : list Z) (base x y : Z) : Z :=
  bits8 (pixel_bit m base x y).

(** Effective on-time of column [c] in bit-plane [k] over [n] fires of
    the refresh interrupt: a fire that enters with [col = c] and
    [plane = k] lights that column for the interval it leaves in [OCR1A]
    plus the interrupt's own [OVERHEAD]. *)
Fixpoint on_time (n : nat) (c k : Z) (s : state) : Z :=
  match n with
  | O => 0
  | S n' =>
      let s' := TIMER1_COMPA s in
      (if (col s =? c) && (plane s =? k) then OCR1A s' + OVERHEAD else 0)
      + on_time n' c k s'
  end.

(** The columns on entry to the next [n] fires. *)
Fixpoint columns (n : nat) (s : state) : list Z :=
  match n with
  | O => []
  | S n' => col s :: columns n' (TIMER1_COMPA s)
  end.

(** ** Well-formed states *)

Definition byteb (b : Z) : bool := (0 <=? b) && (b <? 256).
Definition byte (b : Z) : Prop := 0 <= b < 256.

(** What the constructor establishes and every operation keeps: the
    block holds one or two images of bytes, [frontIdx] is a bit and the
    refresh cursor is in range. *)
Definition wf (s : state) : bool :=
  (img0 s =? 0)
  && ((img1 s =? 0) && (Z.of_nat (length (mem s)) =? bufSize)
      || (img1 s =? bufSize) && (Z.of_nat (length (mem s)) =? 2 * bufSize))
  && ((frontIdx s =? 0) || (frontIdx s =? 1))
  && (0 <=? plane s) && (plane s <? 8)
  && (0 <=? col s) && (col s <? 8)
  && forallb byteb (mem s).

(** Double-buffered construction. *)
Definition dbuf (s : state) : bool := img1 s =? bufSize.

(** The interval in force is the one of the current plane once the
    first column-0 fire has happened. *)
Definition steady (s : state) : bool :=
  (col s =? 0) || (OCR1A s =? Z.shiftl LEDMINTIME (plane s) - OVERHEAD).

(** A button mask with at least one button down. *)
Definition pressed (b : Z) : bool := (b =? 0) || (b =? 4) || (b =? 8).

Definition tap_of (b : Z) : action :=
  if b =? 8 then ACTION_TAP_LEFT else ACTION_TAP_RIGHT.

Definition hold_of (b : Z) : action :=
  if b =? 8 then ACTION_HOLD_LEFT
  else if b =? 4 then ACTION_HOLD_RIGHT
  else ACTION_HOLD_BOTH.

(** Successor of a column in the hard-coded traversal of the switch. *)
Definition next_col (c : Z) : Z :=
  match c with
  | 0 => 4 | 1 => 5 | 2 => 6 | 3 => 7
  | 4 => 2 | 5 => 3 | 6 => 1 | 7 => 0
  | _ => c
  end.

(** The planes on entry to the next [n] fires. *)
Fixpoint planes (n : nat) (s : state) : list Z :=
  match n with
  | O => []
  | S n' => plane s :: planes n' (TIMER1_COMPA s)
  end.

(** The fire that completes a frame: column 7 of plane 7. *)
Definition frame_end (s : state) : bool := (col s =? 7) && (plane s =? 7).

(** The refresh cursor together with the interval in force: the part of
    the state the timing depends on, and the way one fire moves it. *)
Definition cursor (s : state) : Z * Z * Z := (col s, plane s, OCR1A s).

Definition cursor_step (cur : Z * Z * Z) : Z * Z * Z :=
  let '(c, pl, oc) := cur in
  (next_col c,
   if c =? 7 then (if 8 <=? u8 (pl + 1) then 0 else u8 (pl + 1)) else pl,
   if c =? 0 then u16 (Z.shiftl LEDMINTIME pl - OVERHEAD) else oc).

Fixpoint on_time_cur (n : nat) (c k : Z) (cur : Z * Z * Z) : Z :=
  match n with
  | O => 0
  | S n' =>
      let cur' := cursor_step cur in
      (if (fst (fst cur) =? c) && (snd (fst cur) =? k) then snd cur' + OVERHEAD else 0)
      + on_time_cur n' c k cur'
  end.

(** The state after construction and [begin()]. *)
Definition boot (double : bool) : state := begin (Watch double).

(** What one pass of the loop stores in a byte: the old value with the
    mask set or cleared. *)
Definition upd (on : bool) (mask old : Z) : Z :=
  if on then or8 old mask else andnot8 old mask.

Definition mask3 (bmask cmask dmask j : Z) : Z :=
  match j with
  | 0 => bmask
  | 1 => cmask
  | _ => dmask
  end.

(** The passes of the loop for the planes [ks], in that order. *)
Definition plane_writes (ks : list Z) (p bmask cmask dmask c8 : Z) (m : list Z)
    : list Z :=
  fold_left
    (fun m k => plane_write (Z.testbit c8 k) (p + 24 * k) bmask cmask dmask m)
    ks m.

(** Where the tables put the drive line of pixel column [x]: the drive
    group (0 = PORTB, 1 = PORTC, 2 = PORTD) and the bit inside its byte.
    [rowBit_line] below checks both against the tables. *)
Definition port_of (x : Z) : Z := [2; 0; 1; 0; 0; 1; 0; 2] !!! Z.to_nat x.
Definition bit_of (x : Z) : Z := [4; 5; 3; 4; 2; 2; 0; 5] !!! Z.to_nat x.

(** Fires of the refresh interrupt up to and including the one that
    completes the frame. *)
Definition fires_left (s : state) : Z :=
  (7 - plane s) * 8 + [8; 4; 6; 2; 7; 3; 5; 1] !!! Z.to_nat (col s).

Definition is_timer1 (e : interrupt) : bool :=
  match e with
  | IrqTimer1 => true
  | _ => false
  end.

Definition count_timer1 (evs : list interrupt) : Z :=
  Z.of_nat (length (filter (fun e => is_timer1 e = true) evs)).

(** ** The rest of Watch.cpp *)

(** Interrupts served one after the other. *)
Definition run_irqs (evs : list interrupt) (s : state) : state :=
  fold_left (fun s e => fire e s) evs s.



(** The PORT register of a drive group (0 = PORTB, 1 = PORTC, 2 = PORTD). *)
Definition port_val (j : Z) (s : state) : Z :=
  match j with
  | 0 => PORTB s
  | 1 => PORTC s
  | _ => PORTD s
  end.

(** The select line of column [n]: the port and bit that [COLEND] clears
    in [case n] of the refresh interrupt. *)
Definition line_port (n : Z) : Z := [2; 0; 1; 0; 1; 0; 0; 2] !!! Z.to_nat n.
Definition line_bit (n : Z) : Z := [6; 6; 1; 1; 0; 7; 3; 7] !!! Z.to_nat n.

(** A select line is active when its bit is clear. *)
Definition line_low (n : Z) (s : state) : bool :=
  negb (Z.testbit (port_val (line_port n) s) (line_bit n)).

(** The select-line bits of each port. *)
Definition select_mask (j : Z) : Z :=
  match j with
  | 0 => 0xCA
  | 1 => 0x03
  | _ => 0xC0
  end.

(** Every byte of the block has the select-line bits of its port set,
    the bytes being laid out PORTB, PORTC, PORTD in turn. *)
Fixpoint lines_off_from (j : Z) (m : list Z) : bool :=
  match m with
  | [] => true
  | b :: m' =>
      (Z.land b (select_mask j) =? select_mask j)
      && lines_off_from ((j + 1) mod 3) m'
  end.

Definition lines_off (s : state) : bool := lines_off_from 0 (mem s).

(** State of the drive line of pixel column [x] on the PORT registers. *)
Definition port_pixel_bit (s : state) (x : Z) : bool :=
  negb (Z.land (PORTB s) (rowBit 0 x) =? 0)
  || negb (Z.land (PORTC s) (rowBit 1 x) =? 0)
  || negb (Z.land (PORTD s) (rowBit 2 x) =? 0).

(** The read pointer is at the current plane of the front image; before
    the first fire it is at the start of the image with the cursor at
    its initial column 7 of plane 7. *)
Definition ptr_steady (s : state) : bool :=
  ptr s =? img s (frontIdx s) + 24 * plane s.

Definition ptr_ok (s : state) : bool :=
  ptr_steady s
  || ((col s =? 7) && (plane s =? 7) && (ptr s =? img s (frontIdx s))).

(** Cycles from the first of [n] fires to the last, each fire lasting
    the interval it leaves in [OCR1A] plus [OVERHEAD]. *)
Fixpoint frame_time (n : nat) (s : state) : Z :=
  match n with
  | O => 0
  | S n' =>
      let s' := TIMER1_COMPA s in
      OCR1A s' + OVERHEAD + frame_time n' s'
  end.

Fixpoint frame_time_cur (n : nat) (cur : Z * Z * Z) : Z :=
  match n with
  | O => 0
  | S n' =>
      let cur' := cursor_step cur in
      snd cur' + OVERHEAD + frame_time_cur n' cur'
  end.

(** Frames completed by the next [n] fires. *)
Fixpoint frame_ends (n : nat) (cur : Z * Z * Z) : Z :=
  match n with
  | O => 0
  | S n' =>
      (if (fst (fst cur) =? 7) && (snd (fst cur) =? 7) then 1 else 0)
      + frame_ends n' (cursor_step cur)
  end.

(** What holds in every state the driver reaches. *)
Definition inv (s : state) : bool :=
  wf s && ptr_ok s && lines_off s
  && (0 <=? bCount s) && (bCount s <=? 76)
  && (0 <=? frames s) && (frames s <? 65536).






(** ** The binary watch face (examples/Watch) *)

(** The face draws through [watch.drawPixel], modelled by [drawPixel]
    above.  Of [struct Value] the column of the most significant bit and
    its mask are kept; the displayer and the fetcher are passed by the
    caller.  [struct Display] is the row together with the value. *)
Record Value : Type := mkValue {
  Value_col  : Z;   (* unsigned col *)
  Value_mask : Z    (* unsigned mask *)
}.

Record Display : Type := mkDisplay {
  Display_row   : Z;     (* unsigned row *)
  Display_value : Value
}.

Definition hour_value : Value := {| Value_col := 3; Value_mask := 0x10 |}.
Definition ampm_value : Value := {| Value_col := 0; Value_mask := 0x02 |}.

(** An [unsigned] or [int] passed for an [int16_t] parameter. *)
Definition i16 (z : Z) : Z :=
  if u16 z <? 32768 then u16 z else u16 z - 65536.

(** The loop of display_nobcd,
    [for (uint8_t mask = ..., col = ...; mask; mask >>= 1, col += 1)].
    The mask is a byte, so the loop is left after 8 passes at most. *)
Fixpoint nobcd_loop (fuel : nat) (mask col row value on off : Z) (s : state)
    : state :=
  match fuel with
  | O => s
  | S fuel' =>
      if mask =? 0 then s
      else
        let s :=
          drawPixel col (i16 row) (if Z.land value mask =? 0 then off else on) s in
        nobcd_loop fuel' (Z.shiftr mask 1) (u8 (col + 1)) row value on off s
  end.

(** [display_nobcd(Display *dsp, uint8_t value, uint8_t on, uint8_t off)] *)
Definition display_nobcd (dsp : Display) (value on off : Z) (s : state) : state :=
  let val := Display_value dsp in
  nobcd_loop 8 (u8 (Value_mask val)) (u8 (Value_col val)) (Display_row dsp)
    value on off s.

(** The loop of display_value in BCD mode: the ones digit from column
    5 on and the tens digit 5 columns to its left. *)
Fixpoint bcd_loop (fuel : nat) (mask col row value digit on off : Z) (s : state)
    : state :=
  match fuel with
  | O => s
  | S fuel' =>
      if mask =? 0 then s
      else
        let s :=
          drawPixel col (i16 row) (if Z.land value mask =? 0 then off else on) s in
        let s :=
          drawPixel (col - 5) (i16 row)
            (if Z.land digit mask =? 0 then off else on) s in
        bcd_loop fuel' (Z.shiftr mask 1) (u8 (col + 1)) row value digit on off s
  end.

(** [display_value(Display *dsp, uint8_t value, uint8_t on, uint8_t off)],
    with the global [bcd] as an argument. *)
Definition display_value (bcd : bool) (dsp : Display) (value on off : Z)
    (s : state) : state :=
  if negb bcd then display_nobcd dsp value on off s
  else
    let digit := value / 10 in
    let value := u8 (value - digit * 10) in
    let s :=
      drawPixel 4 (i16 (Display_row dsp))
        (if Z.land value 0x08 =? 0 then off else on) s in
    bcd_loop 8 0x04 5 (Display_row dsp) value digit on off s.

(** [display_hour], with the global [h24] as an argument and the
    function's static [hour_12] threaded through: [None] while its
    displayer is still null, which the first 12-hour call ends. *)
Definition display_hour (h24 : bool) (hour_12 : option Value) (dsp : Display)
    (value on off : Z) (s : state) : option Value * state :=
  if h24 then (hour_12, display_nobcd dsp value on off s)
  else
    let v :=
      match hour_12 with
      | Some v => v
      | None =>
          {| Value_col := u16 (Value_col (Display_value dsp) + 1);
             Value_mask := Z.shiftr (Value_mask (Display_value dsp)) 1 |}
      end in
    (Some v,
     display_nobcd {| Display_row := Display_row dsp; Display_value := v |}
       value on off s).

(** [display_ampm] *)
Definition display_ampm (h24 : bool) (dsp : Display) (value on off : Z)
    (s : state) : state :=
  if negb h24 then display_nobcd dsp value on off s else s.


(** The fetchers, with the hour of the [DateTime] as an argument. *)
Definition fetch_ampm (hour : Z) : Z := (if hour <? 12 then 1 else 0) + 1.

Definition fetch_hour12 (hour : Z) : Z :=
  let h := hour in
  if 12 <? h then u8 (h - 12)
  else if h =? 0 then 12
  else h.

Definition fetch_hour (h24 : bool) (hour : Z) : Z :=
  if h24 then hour else fetch_hour12 hour.


(** * Properties *)

(** ** The refresh interrupt, field by field *)

Ltac split_ifs :=
  repeat match goal with
    | |- context [if ?b then _ else _] => destruct b eqn:?
    end.

(** Case analysis on the [switch(col)] of the refresh interrupt. *)
Ltac isr_cases s :=
  destruct s as [m i0 i1 pl c p fi bs bc ba sf fr pb pc pd oc t1 t2 tk];
  unfold TIMER1_COMPA, advance_plane; cbn;
  destruct c as [|[[[?|?|]|[?|?|]|]|[[?|?|]|[?|?|]|]|]|?]; cbn.

Lemma TIMER1_col s : col (TIMER1_COMPA s) = next_col (col s).
Proof. isr_cases s; split_ifs; reflexivity. Qed.

Lemma TIMER1_mem s : mem (TIMER1_COMPA s) = mem s.
Proof. isr_cases s; split_ifs; reflexivity. Qed.

Lemma TIMER1_img s i : img (TIMER1_COMPA s) i = img s i.
Proof. unfold img. isr_cases s; split_ifs; reflexivity. Qed.

Lemma TIMER1_plane s :
  plane (TIMER1_COMPA s) =
    if col s =? 7 then (if 8 <=? u8 (plane s + 1) then 0 else u8 (plane s + 1))
    else plane s.
Proof. isr_cases s; split_ifs; reflexivity. Qed.

Lemma TIMER1_OCR1A s :
  OCR1A (TIMER1_COMPA s) =
    if col s =? 0 then u16 (Z.shiftl LEDMINTIME (plane s) - OVERHEAD) else OCR1A s.
Proof. isr_cases s; split_ifs; reflexivity. Qed.

(** ** Well-formedness *)

Lemma wf_inv s :
  wf s = true ->
  img0 s = 0
  /\ (img1 s = 0 /\ Z.of_nat (length (mem s)) = bufSize
      \/ img1 s = bufSize /\ Z.of_nat (length (mem s)) = 2 * bufSize)
  /\ (frontIdx s = 0 \/ frontIdx s = 1)
  /\ 0 <= plane s < 8
  /\ 0 <= col s < 8
  /\ Forall byte (mem s).
Proof.
  unfold wf. rewrite !andb_true_iff, !orb_true_iff, !andb_true_iff.
  rewrite forallb_forall, <- Forall_forall.
  intros (((((((H0 & H1) & H2) & H3) & H4) & H5) & H6) & H7).
  split; [lia|]. split; [|split; [lia|split; [lia|split; [lia|]]]].
  - destruct H1 as [[? ?]|[? ?]]; [left|right]; lia.
  - revert H7. apply Forall_impl.
    intros b Hb. unfold byteb in Hb. unfold byte. lia.
Qed.

Lemma wf_intro s :
  img0 s = 0 ->
  (img1 s = 0 /\ Z.of_nat (length (mem s)) = bufSize
   \/ img1 s = bufSize /\ Z.of_nat (length (mem s)) = 2 * bufSize) ->
  (frontIdx s = 0 \/ frontIdx s = 1) ->
  0 <= plane s < 8 ->
  0 <= col s < 8 ->
  Forall byte (mem s) ->
  wf s = true.
Proof.
  intros H0 H1 H2 H3 H4 H7.
  unfold wf. repeat (apply andb_true_intro; split); try lia.
  apply forallb_forall, Forall_forall. revert H7. apply Forall_impl.
  intros b Hb. unfold byteb. unfold byte in Hb. lia.
Qed.

Lemma TIMER1_frontIdx_bit s :
  (frontIdx s = 0 \/ frontIdx s = 1) ->
  frontIdx (TIMER1_COMPA s) = 0 \/ frontIdx (TIMER1_COMPA s) = 1.
Proof.
  isr_cases s; split_ifs; cbn; intros [-> | ->]; cbn; auto.
Qed.

Lemma wf_TIMER1 s : wf s = true -> wf (TIMER1_COMPA s) = true.
Proof.
  intros H. apply wf_inv in H. destruct H as (H0 & H1 & H2 & H3 & H4 & H5).
  apply wf_intro.
  - rewrite <- H0. apply (TIMER1_img s 0).
  - rewrite TIMER1_mem. change (img1 (TIMER1_COMPA s)) with (img (TIMER1_COMPA s) 1).
    rewrite TIMER1_img. exact H1.
  - apply TIMER1_frontIdx_bit, H2.
  - rewrite TIMER1_plane. unfold u8. split_ifs; try lia; rewrite Z.mod_small in *; lia.
  - rewrite TIMER1_col. revert H4. generalize (col s). intros c Hc.
    assert (c = 0 \/ c = 1 \/ c = 2 \/ c = 3 \/ c = 4 \/ c = 5 \/ c = 6 \/ c = 7) as Hc' by lia.
    clear Hc. decompose [or] Hc'; subst; cbn; lia.
  - rewrite TIMER1_mem. exact H5.
Qed.

(** ** C2: intervals of the bit angle modulation *)

Lemma range8 z : 0 <= z < 8 ->
  z = 0 \/ z = 1 \/ z = 2 \/ z = 3 \/ z = 4 \/ z = 5 \/ z = 6 \/ z = 7.
Proof. lia. Qed.

Ltac enum8 H := apply range8 in H; decompose [or] H; clear H; subst.

Lemma TIMER1_cursor s : cursor (TIMER1_COMPA s) = cursor_step (cursor s).
Proof.
  unfold cursor, cursor_step.
  rewrite TIMER1_col, TIMER1_plane, TIMER1_OCR1A. reflexivity.
Qed.

Lemma on_time_cursor n c k : forall s, on_time n c k s = on_time_cur n c k (cursor s).
Proof.
  induction n as [|n IH]; intros s; [reflexivity|].
  cbn [on_time on_time_cur]. rewrite IH, TIMER1_cursor.
  change (OCR1A (TIMER1_COMPA s)) with (snd (cursor (TIMER1_COMPA s))).
  rewrite TIMER1_cursor. reflexivity.
Qed.

Lemma on_time_cur_sweep cl pl oc c k :
  0 <= pl < 8 -> 0 <= cl < 8 ->
  (cl =? 0) || (oc =? Z.shiftl LEDMINTIME pl - OVERHEAD) = true ->
  0 <= c < 8 -> 0 <= k < 8 ->
  on_time_cur 64 c k (cl, pl, oc) = LEDMINTIME * 2 ^ k.
Proof.
  intros Hpl Hcl Hst Hc Hk.
  enum8 Hpl; enum8 Hcl; cbn in Hst; try apply Z.eqb_eq in Hst; subst;
  enum8 Hc; enum8 Hk; vm_compute; reflexivity.
Qed.

Lemma steady_TIMER1 s :
  0 <= plane s < 8 -> 0 <= col s < 8 -> steady s = true ->
  steady (TIMER1_COMPA s) = true.
Proof.
  unfold steady. rewrite TIMER1_col, TIMER1_plane, TIMER1_OCR1A.
  generalize (col s) (plane s) (OCR1A s). intros c pl oc Hpl Hcl Hst.
  enum8 Hcl; cbn in Hst |- *; try reflexivity.
  all: try exact Hst.
  enum8 Hpl; reflexivity.
Qed.

Lemma interval_of_plane pl :
  0 <= pl < 8 -> u16 (Z.shiftl LEDMINTIME pl - OVERHEAD) = Z.shiftl LEDMINTIME pl - OVERHEAD.
Proof. intros H. enum8 H; reflexivity. Qed.

(** C2, as amended.  A fire that enters with column 0 programs the
    interval [(LEDMINTIME << plane) - OVERHEAD]; every other fire leaves
    [OCR1A] as it is.  So in a steady state (one reached after a
    column-0 fire) the interval in force after each fire is the one of
    the plane on entry, steadiness is kept, and over 64 consecutive
    fires (a full sweep of 8 planes) every column is lit in bit-plane k
    for [LEDMINTIME * 2^k] cycles, counting the interrupt's overhead. *)
Theorem bam_interval_steady (s : state) :
  wf s = true -> steady s = true ->
  (col s = 0 \/ OCR1A (TIMER1_COMPA s) = OCR1A s)
  /\ OCR1A (TIMER1_COMPA s) = Z.shiftl LEDMINTIME (plane s) - OVERHEAD
  /\ steady (TIMER1_COMPA s) = true
  /\ (forall c k, 0 <= c < 8 -> 0 <= k < 8 ->
        on_time 64 c k s = LEDMINTIME * 2 ^ k).
Proof.
  intros Hwf Hst. apply wf_inv in Hwf.
  destruct Hwf as (_ & _ & _ & Hpl & Hcl & _).
  split; [|split; [|split]].
  - rewrite TIMER1_OCR1A. destruct (col s =? 0) eqn:E; [left; lia | right; reflexivity].
  - rewrite TIMER1_OCR1A. unfold steady in Hst.
    destruct (col s =? 0); [apply interval_of_plane, Hpl | cbn in Hst; lia].
  - apply steady_TIMER1; assumption.
  - intros c k Hc Hk. rewrite on_time_cursor. unfold cursor.
    apply on_time_cur_sweep; assumption.
Qed.

Lemma bam_interval_steady_witness :
  wf (TIMER1_COMPA (boot true)) = true
  /\ steady (TIMER1_COMPA (boot true)) = true
  /\ OCR1A (TIMER1_COMPA (TIMER1_COMPA (boot true))) = 7
  /\ on_time 64 3 5 (TIMER1_COMPA (boot true)) = 1920.
Proof.
  split; [reflexivity | split; [reflexivity |]].
  destruct (bam_interval_steady (TIMER1_COMPA (boot true)) eq_refl eq_refl)
    as (_ & H1 & _ & H2).
  split; [exact H1 | exact (H2 3 5 ltac:(lia) ltac:(lia))].
Defined.

(** The first fire after [begin()] enters with plane 7 and leaves the
    interval at the 100 cycles that [begin()] programmed. *)
Lemma first_fire_keeps_initial_interval :
  wf (boot false) = true
  /\ plane (boot false) = 7
  /\ OCR1A (TIMER1_COMPA (boot false)) = 100
  /\ OCR1A (TIMER1_COMPA (boot false))
     <> Z.shiftl LEDMINTIME (plane (boot false)) - OVERHEAD.
Proof. repeat split. vm_compute. discriminate. Qed.

(** Every well-formed state is steady after the first fire that enters
    with column 7 or 0; from [begin()] that is the very first fire. *)
Lemma steady_after_boot (double : bool) : steady (TIMER1_COMPA (boot double)) = true.
Proof. destruct double; reflexivity. Qed.

(** ** C3: the swap is committed at the end of a frame only *)

Lemma INT0_display pind s :
  mem (INT0 pind s) = mem s /\ img0 (INT0 pind s) = img0 s
  /\ img1 (INT0 pind s) = img1 s /\ plane (INT0 pind s) = plane s
  /\ col (INT0 pind s) = col s /\ ptr (INT0 pind s) = ptr s
  /\ frontIdx (INT0 pind s) = frontIdx s /\ swapFlag (INT0 pind s) = swapFlag s
  /\ frames (INT0 pind s) = frames s /\ OCR1A (INT0 pind s) = OCR1A s.
Proof.
  destruct s as [m i0 i1 pl c p fi bs bc ba sf fr pb pc pd oc t1 t2 tk].
  unfold INT0. cbn. split_ifs; cbn; repeat split.
Qed.

Lemma TIMER2_display s :
  mem (TIMER2_OVF s) = mem s /\ img0 (TIMER2_OVF s) = img0 s
  /\ img1 (TIMER2_OVF s) = img1 s /\ plane (TIMER2_OVF s) = plane s
  /\ col (TIMER2_OVF s) = col s /\ ptr (TIMER2_OVF s) = ptr s
  /\ frontIdx (TIMER2_OVF s) = frontIdx s /\ swapFlag (TIMER2_OVF s) = swapFlag s
  /\ frames (TIMER2_OVF s) = frames s /\ OCR1A (TIMER2_OVF s) = OCR1A s.
Proof.
  destruct s as [m i0 i1 pl c p fi bs bc ba sf fr pb pc pd oc t1 t2 tk].
  unfold TIMER2_OVF. cbn. split_ifs; cbn; repeat split.
Qed.

Lemma TIMER1_commit s :
  0 <= plane s < 8 -> (frontIdx s = 0 \/ frontIdx s = 1) ->
  frame_end s = true ->
  plane (TIMER1_COMPA s) = 0
  /\ swapFlag (TIMER1_COMPA s) = false
  /\ frontIdx (TIMER1_COMPA s) = (if swapFlag s then 1 - frontIdx s else frontIdx s)
  /\ frames (TIMER1_COMPA s) = u16 (frames s + 1)
  /\ ptr (TIMER1_COMPA s) = img (TIMER1_COMPA s) (frontIdx (TIMER1_COMPA s)).
Proof.
  unfold frame_end, img. intros Hpl Hfi H.
  apply andb_true_iff in H. destruct H as [Hc Hp].
  apply Z.eqb_eq in Hc, Hp.
  destruct s as [m i0 i1 pl c p fi bs bc ba sf fr pb pc pd oc t1 t2 tk].
  cbn in *. subst. unfold TIMER1_COMPA, advance_plane. cbn.
  destruct sf; cbn; destruct Hfi; subst; cbn; repeat split.
Qed.

Lemma TIMER1_no_commit s :
  0 <= plane s < 8 -> 0 <= col s < 8 ->
  frame_end s = false ->
  swapFlag (TIMER1_COMPA s) = swapFlag s
  /\ frontIdx (TIMER1_COMPA s) = frontIdx s
  /\ frames (TIMER1_COMPA s) = frames s
  /\ plane s <= plane (TIMER1_COMPA s).
Proof.
  unfold frame_end. intros Hpl Hcl H.
  split; [|split; [|split]].
  4: { rewrite TIMER1_plane. revert Hpl H. generalize (plane s) (col s).
       intros pl c Hpl H. enum8 Hpl; cbn in H |- *;
       destruct (c =? 7); cbn in H |- *; try discriminate; lia. }
  all: destruct s as [m i0 i1 pl c p fi bs bc ba sf fr pb pc pd oc t1 t2 tk];
    cbn [plane col swapFlag frontIdx frames] in *;
    unfold TIMER1_COMPA, advance_plane;
    enum8 Hcl; try reflexivity;
    enum8 Hpl; try discriminate; destruct sf; reflexivity.
Qed.

(** C3.  A fire of the refresh interrupt makes the plane index wrap
    (drop) exactly when it enters with column 7 of plane 7.  On that
    fire the swap flag ends up clear, the front index is flipped if the
    flag was set, the frame counter advances by one (16 bits, wrapping)
    and the read pointer is the start of the front image.  On every
    other fire, and in the button interrupts, the flag, the front index
    and the frame counter keep their values. *)
Theorem swap_committed_at_frame_end_only (s : state) :
  wf s = true ->
  (plane (TIMER1_COMPA s) < plane s <-> frame_end s = true)
  /\ (frame_end s = true ->
        plane (TIMER1_COMPA s) = 0
        /\ swapFlag (TIMER1_COMPA s) = false
        /\ frontIdx (TIMER1_COMPA s) = (if swapFlag s then 1 - frontIdx s else frontIdx s)
        /\ frames (TIMER1_COMPA s) = u16 (frames s + 1)
        /\ ptr (TIMER1_COMPA s) = img (TIMER1_COMPA s) (frontIdx (TIMER1_COMPA s)))
  /\ (frame_end s = false ->
        swapFlag (TIMER1_COMPA s) = swapFlag s
        /\ frontIdx (TIMER1_COMPA s) = frontIdx s
        /\ frames (TIMER1_COMPA s) = frames s)
  /\ (forall e, e <> IrqTimer1 ->
        swapFlag (fire e s) = swapFlag s
        /\ frontIdx (fire e s) = frontIdx s
        /\ frames (fire e s) = frames s).
Proof.
  intros Hwf. apply wf_inv in Hwf.
  destruct Hwf as (_ & _ & Hfi & Hpl & Hcl & _).
  split; [|split; [|split]].
  - destruct (frame_end s) eqn:E.
    + destruct (TIMER1_commit s Hpl Hfi E) as (H0 & _).
      unfold frame_end in E. split; [reflexivity | lia].
    + destruct (TIMER1_no_commit s Hpl Hcl E) as (_ & _ & _ & H).
      split; [lia | discriminate].
  - apply TIMER1_commit; assumption.
  - intros E. destruct (TIMER1_no_commit s Hpl Hcl E) as (H1 & H2 & H3 & _). auto.
  - intros [|pind|] He; [congruence | |]; unfold fire.
    + destruct (INT0_display pind s) as (_ & _ & _ & _ & _ & _ & H1 & H2 & H3 & _).
      auto.
    + destruct (timer2_enabled s); [|auto].
      destruct (TIMER2_display s) as (_ & _ & _ & _ & _ & _ & H1 & H2 & H3 & _).
      auto.
Qed.

Lemma swap_committed_at_frame_end_only_witness :
  wf (set_swapFlag true (boot true)) = true
  /\ swapFlag (TIMER1_COMPA (set_swapFlag true (boot true))) = false
  /\ frontIdx (TIMER1_COMPA (set_swapFlag true (boot true))) = 1
  /\ frames (TIMER1_COMPA (set_swapFlag true (boot true))) = 1.
Proof.
  split; [reflexivity|].
  destruct (swap_committed_at_frame_end_only (set_swapFlag true (boot true)) eq_refl)
    as (_ & H & _).
  destruct (H eq_refl) as (_ & H1 & H2 & H3 & _).
  split; [exact H1 | split; [exact H2 | exact H3]].
Defined.

(** ** C4: the column traversal *)

Lemma refresh_col n : forall s, col (refresh n s) = Nat.iter n next_col (col s).
Proof.
  unfold refresh.
  induction n as [|n IH]; intros s; [reflexivity|].
  cbn [repeat_fire fire]. rewrite IH, TIMER1_col.
  symmetry. apply Nat.iter_succ_r.
Qed.

(** C4.  From any column the hard-coded successors visit each of the 8
    columns once and come back to the start after 8 fires; a sweep that
    starts at column 0 runs 0,4,2,6,1,5,3,7 with the plane index the
    same on entry to all 8 fires, and moves to the next plane after. *)
Theorem column_traversal_is_permutation (s : state) :
  wf s = true ->
  columns 8 s ≡ₚ [0; 1; 2; 3; 4; 5; 6; 7]
  /\ NoDup (columns 8 s)
  /\ col (refresh 8 s) = col s
  /\ (col s = 0 ->
        columns 8 s = [0; 4; 2; 6; 1; 5; 3; 7]
        /\ planes 8 s = replicate 8 (plane s)
        /\ plane (refresh 8 s) = (plane s + 1) mod 8).
Proof.
  intros Hwf. apply wf_inv in Hwf.
  destruct Hwf as (_ & _ & _ & Hpl & Hcl & _).
  assert (Hcols : forall c, col s = c ->
            columns 8 s = [c; next_col c; next_col (next_col c);
              next_col (next_col (next_col c));
              next_col (next_col (next_col (next_col c)));
              next_col (next_col (next_col (next_col (next_col c))));
              next_col (next_col (next_col (next_col (next_col (next_col c)))));
              next_col (next_col (next_col (next_col (next_col (next_col (next_col c))))))]).
  { intros c <-. cbn [columns]. rewrite !TIMER1_col. reflexivity. }
  specialize (Hcols _ eq_refl).
  split; [|split; [|split]].
  - rewrite Hcols. revert Hcl. generalize (col s). intros c Hc.
    enum8 Hc; apply (bool_decide_unpack _); vm_compute; reflexivity.
  - rewrite Hcols. revert Hcl. generalize (col s). intros c Hc.
    enum8 Hc; apply (bool_decide_unpack _); vm_compute; reflexivity.
  - rewrite refresh_col. revert Hcl. generalize (col s). intros c Hc.
    enum8 Hc; reflexivity.
  - intros H0. split; [|split].
    + rewrite Hcols, H0. reflexivity.
    + cbn [planes]. rewrite !TIMER1_plane, !TIMER1_col, H0. reflexivity.
    + unfold refresh. cbn [repeat_fire fire]. rewrite !TIMER1_plane, !TIMER1_col, H0.
      cbn. revert Hpl. generalize (plane s). intros pl Hpl. enum8 Hpl; reflexivity.
Qed.

Lemma column_traversal_is_permutation_witness :
  wf (TIMER1_COMPA (boot false)) = true
  /\ columns 8 (TIMER1_COMPA (boot false)) = [0; 4; 2; 6; 1; 5; 3; 7]
  /\ plane (refresh 8 (TIMER1_COMPA (boot false))) = 1.
Proof.
  split; [reflexivity|].
  destruct (column_traversal_is_permutation (TIMER1_COMPA (boot false)) eq_refl)
    as (_ & _ & _ & H).
  destruct (H eq_refl) as (H1 & _ & H3). split; [exact H1 | exact H3].
Defined.

(** ** C7: coordinates out of range *)

(** C7.  For coordinates outside [0,7]x[0,7] drawPixel returns the state
    it was given: no byte of either image changes and nothing else does. *)
Theorem drawPixel_out_of_range (x y c : Z) (s : state) :
  x < 0 \/ 7 < x \/ y < 0 \/ 7 < y ->
  drawPixel x y c s = s
  /\ front_buffer (drawPixel x y c s) = front_buffer s
  /\ back_buffer (drawPixel x y c s) = back_buffer s.
Proof.
  intros H.
  assert (E : drawPixel x y c s = s).
  { unfold drawPixel.
    destruct ((0 <=? x) && (0 <=? y) && (x <? 8) && (y <? 8)) eqn:B; [|reflexivity].
    rewrite !andb_true_iff in B. lia. }
  rewrite E. auto.
Qed.

Lemma drawPixel_out_of_range_witness :
  drawPixel 8 (-1) 255 (boot true) = boot true.
Proof.
  refine (proj1 (drawPixel_out_of_range 8 (-1) 255 (boot true) _)). lia.
Defined.

(** ** Byte memory *)

Lemma length_store m a v : length (store m a v) = length m.
Proof. apply length_insert. Qed.

Lemma load_store_eq m a v :
  0 <= a < Z.of_nat (length m) -> load (store m a v) a = v.
Proof.
  intros H. unfold load, store. apply list_lookup_total_insert_eq. lia.
Qed.

Lemma load_store_ne m a b v :
  0 <= a -> 0 <= b -> a <> b -> load (store m a v) b = load m b.
Proof.
  intros Ha Hb H. unfold load, store. apply list_lookup_total_insert_ne. lia.
Qed.

Lemma plane_write_stores on p b c d m :
  0 <= p ->
  plane_write on p b c d m =
    store (store (store m p (upd on b (load m p)))
             (p + 1) (upd on c (load m (p + 1))))
      (p + 2) (upd on d (load m (p + 2))).
Proof.
  intros Hp. unfold plane_write, upd.
  destruct on; rewrite !load_store_ne by lia; reflexivity.
Qed.

Lemma length_plane_write on p b c d m :
  length (plane_write on p b c d m) = length m.
Proof. unfold plane_write. destruct on; rewrite !length_store; reflexivity. Qed.

Lemma load_plane_write_hit on p b c d m j :
  0 <= p -> p + 2 < Z.of_nat (length m) -> 0 <= j < 3 ->
  load (plane_write on p b c d m) (p + j)
  = upd on (mask3 b c d j) (load m (p + j)).
Proof.
  intros Hp Hlen Hj. rewrite plane_write_stores by assumption.
  assert (j = 0 \/ j = 1 \/ j = 2) as [-> | [-> | ->]] by lia; cbn [mask3].
  - rewrite Z.add_0_r. rewrite !load_store_ne by lia.
    apply load_store_eq. lia.
  - rewrite load_store_ne by lia. apply load_store_eq. rewrite length_store. lia.
  - apply load_store_eq. rewrite !length_store. lia.
Qed.

Lemma load_plane_write_miss on p b c d m a :
  0 <= p -> 0 <= a -> a < p \/ p + 2 < a ->
  load (plane_write on p b c d m) a = load m a.
Proof.
  intros Hp Ha H. rewrite plane_write_stores by assumption.
  rewrite !load_store_ne by lia. reflexivity.
Qed.

Lemma length_plane_writes ks p b c d c8 :
  forall m, length (plane_writes ks p b c d c8 m) = length m.
Proof.
  unfold plane_writes. induction ks as [|k ks IH]; intros m; [reflexivity|].
  cbn [fold_left]. rewrite IH. apply length_plane_write.
Qed.

Lemma load_plane_writes_miss ks p b c d c8 a :
  0 <= a ->
  Forall (fun k => 0 <= p + 24 * k /\ (a < p + 24 * k \/ p + 24 * k + 2 < a)) ks ->
  forall m, load (plane_writes ks p b c d c8 m) a = load m a.
Proof.
  intros Ha. unfold plane_writes.
  induction 1 as [|k ks [Hk Hmiss] _ IH]; intros m; [reflexivity|].
  cbn [fold_left]. rewrite IH. apply load_plane_write_miss; assumption.
Qed.

Lemma load_plane_writes_hit ks p b c d c8 k j :
  NoDup ks -> k ∈ ks -> 0 <= j < 3 ->
  Forall (fun k' => 0 <= p + 24 * k') ks ->
  forall m,
    Forall (fun k' => p + 24 * k' + 2 < Z.of_nat (length m)) ks ->
    load (plane_writes ks p b c d c8 m) (p + 24 * k + j)
    = upd (Z.testbit c8 k) (mask3 b c d j) (load m (p + 24 * k + j)).
Proof.
  intros Hnd Hin Hj Hpos. unfold plane_writes.
  induction ks as [|k' ks IH]; intros m Hlen; [inversion Hin|].
  pose proof (NoDup_cons_1_1 _ _ Hnd) as Hnotin.
  apply NoDup_cons_1_2 in Hnd.
  apply Forall_cons_1 in Hpos. destruct Hpos as [Hk' Hpos].
  apply Forall_cons_1 in Hlen. destruct Hlen as [Hl' Hlen].
  cbn [fold_left]. apply elem_of_cons in Hin. destruct Hin as [-> | Hin].
  - fold (plane_writes ks p b c d c8
            (plane_write (Z.testbit c8 k') (p + 24 * k') b c d m)).
    rewrite load_plane_writes_miss.
    + apply load_plane_write_hit; lia.
    + lia.
    + apply List.Forall_forall. intros k0 Hk0.
      rewrite List.Forall_forall in Hpos. split; [apply Hpos, Hk0|].
      apply list_elem_of_In in Hk0.
      assert (k0 <> k') by (intros E; apply Hnotin; rewrite <- E; exact Hk0).
      lia.
  - rewrite IH; try assumption.
    + f_equal.
      assert (k <> k') by (intros E; apply Hnotin; rewrite <- E; exact Hin).
      assert (0 <= p + 24 * k).
      { rewrite List.Forall_forall in Hpos. apply Hpos, list_elem_of_In, Hin. }
      apply load_plane_write_miss; lia.
    + clear -Hlen. induction Hlen; constructor; [|assumption].
      rewrite length_plane_write. assumption.
Qed.

(** ** Bits *)

Lemma land_pow2_test a k :
  0 <= k -> negb (Z.land a (2 ^ k) =? 0) = Z.testbit a k.
Proof.
  intros Hk. destruct (Z.testbit a k) eqn:E.
  - apply negb_true_iff, Z.eqb_neq. intros H.
    assert (Z.testbit (Z.land a (2 ^ k)) k = true) as Hb.
    { rewrite Z.land_spec, E, Z.pow2_bits_true by assumption. reflexivity. }
    rewrite H, Z.bits_0 in Hb. discriminate.
  - apply negb_false_iff, Z.eqb_eq, Z.bits_inj'. intros n Hn.
    rewrite Z.land_spec, Z.bits_0, Z.pow2_bits_eqb by assumption.
    destruct (Z.eqb_spec k n) as [-> | _].
    + rewrite E. reflexivity.
    + apply andb_false_r.
Qed.

Lemma testbit_u8_low a i : 0 <= i < 8 -> Z.testbit (u8 a) i = Z.testbit a i.
Proof.
  intros H. unfold u8. change 256 with (2 ^ 8).
  apply Z.mod_pow2_bits_low. lia.
Qed.

Lemma testbit_u8_high a i : 8 <= i -> Z.testbit (u8 a) i = false.
Proof.
  intros H. unfold u8. change 256 with (2 ^ 8).
  apply Z.mod_pow2_bits_high. lia.
Qed.

Lemma u8_byte a : byte (u8 a).
Proof. unfold byte, u8. apply Z.mod_pos_bound. lia. Qed.

Lemma u8_of_byte a : byte a -> u8 a = a.
Proof. unfold byte, u8. intros H. apply Z.mod_small. exact H. Qed.

Lemma testbit_upd on mask old i :
  0 <= i < 8 ->
  Z.testbit (upd on mask old) i =
    if on then Z.testbit old i || Z.testbit mask i
    else Z.testbit old i && negb (Z.testbit mask i).
Proof.
  intros Hi. unfold upd, or8, andnot8. destruct on; rewrite testbit_u8_low by assumption.
  - apply Z.lor_spec.
  - rewrite Z.land_spec, Z.lnot_spec by lia. reflexivity.
Qed.

Lemma upd_byte on mask old : byte (upd on mask old).
Proof. unfold upd, or8, andnot8. destruct on; apply u8_byte. Qed.

Lemma upd_zero on old : byte old -> upd on 0 old = old.
Proof.
  intros H. unfold upd, or8, andnot8.
  destruct on.
  - rewrite Z.lor_0_r. apply u8_of_byte, H.
  - change (Z.lnot 0) with (-1). rewrite Z.land_m1_r. apply u8_of_byte, H.
Qed.

Lemma testbit_byte_high a i : byte a -> 8 <= i -> Z.testbit a i = false.
Proof.
  intros Ha Hi. rewrite <- (u8_of_byte a Ha). apply testbit_u8_high, Hi.
Qed.

(** The 8-bit number [bits8 f] has [f k] as its bit k. *)
Lemma testbit_bits8 f k : 0 <= k < 8 -> Z.testbit (bits8 f) k = f k.
Proof.
  intros Hk. unfold bits8.
  enum8 Hk;
    destruct (f 0), (f 1), (f 2), (f 3), (f 4), (f 5), (f 6), (f 7); reflexivity.
Qed.

Lemma bits8_byte f : byte (bits8 f).
Proof.
  unfold bits8, byte.
  destruct (f 0), (f 1), (f 2), (f 3), (f 4), (f 5), (f 6), (f 7); cbn; lia.
Qed.

Lemma bits8_ext f g :
  (forall k, 0 <= k < 8 -> f k = g k) -> bits8 f = bits8 g.
Proof.
  intros H. unfold bits8. rewrite !H by lia. reflexivity.
Qed.

Lemma bits8_testbit c : byte c -> bits8 (Z.testbit c) = c.
Proof.
  intros Hc. apply Z.bits_inj'. intros i Hi.
  destruct (Z.lt_ge_cases i 8) as [Hlt | Hge].
  - apply testbit_bits8. lia.
  - rewrite !testbit_byte_high; auto using bits8_byte.
Qed.

(** ** The drawing tables *)

Lemma rowBit_line x j :
  0 <= x < 8 -> 0 <= j < 3 ->
  rowBit j x = if j =? port_of x then 2 ^ bit_of x else 0.
Proof.
  intros Hx Hj.
  assert (j = 0 \/ j = 1 \/ j = 2) as [-> | [-> | ->]] by lia;
    enum8 Hx; reflexivity.
Qed.

Lemma line_range x : 0 <= x < 8 -> 0 <= port_of x < 3 /\ 0 <= bit_of x < 8.
Proof.
  intros Hx.
  enum8 Hx; vm_compute; repeat split; first [reflexivity | discriminate].
Qed.

Lemma line_inj x x' :
  0 <= x < 8 -> 0 <= x' < 8 ->
  port_of x = port_of x' -> bit_of x = bit_of x' -> x = x'.
Proof.
  intros Hx Hx'. enum8 Hx; enum8 Hx'; cbn; intros; try reflexivity; discriminate.
Qed.

Lemma pixel_bit_line m base x y k :
  0 <= x < 8 ->
  pixel_bit m base x y k
  = Z.testbit (load m (base + y * 3 + 24 * k + port_of x)) (bit_of x).
Proof.
  intros Hx. unfold pixel_bit.
  destruct (line_range x Hx) as [Hp Hb].
  rewrite !rowBit_line by lia.
  assert (port_of x = 0 \/ port_of x = 1 \/ port_of x = 2) as [E | [E | E]] by lia;
    rewrite E; cbn [Z.eqb Pos.eqb]; rewrite ?Z.land_0_r; cbn [Z.eqb negb orb];
    rewrite land_pow2_test by lia; rewrite ?Z.add_0_r, ?orb_false_r; reflexivity.
Qed.

(** ** The loop of drawPixel *)

Lemma drawPixel_loop_step fuel bit p b c d c8 m :
  bit <> 0 ->
  drawPixel_loop (S fuel) bit p b c d c8 m
  = drawPixel_loop fuel (u8 (Z.shiftl bit 1)) (p + 24) b c d c8
      (plane_write (negb (Z.land c8 bit =? 0)) p b c d m).
Proof.
  intros H. cbn [drawPixel_loop].
  destruct (Z.eqb_spec bit 0); [contradiction | reflexivity].
Qed.

(** The loop runs its body for the planes 0 to 7 and leaves because
    [bit] has become 0, not because the fuel is spent. *)
Lemma drawPixel_loop_planes p b c d c8 m :
  drawPixel_loop 9 1 p b c d c8 m
  = plane_writes [0; 1; 2; 3; 4; 5; 6; 7] p b c d c8 m.
Proof.
  rewrite (drawPixel_loop_step _ 1) by discriminate.
  change (u8 (Z.shiftl 1 1)) with 2.
  rewrite (drawPixel_loop_step _ 2) by discriminate.
  change (u8 (Z.shiftl 2 1)) with 4.
  rewrite (drawPixel_loop_step _ 4) by discriminate.
  change (u8 (Z.shiftl 4 1)) with 8.
  rewrite (drawPixel_loop_step _ 8) by discriminate.
  change (u8 (Z.shiftl 8 1)) with 16.
  rewrite (drawPixel_loop_step _ 16) by discriminate.
  change (u8 (Z.shiftl 16 1)) with 32.
  rewrite (drawPixel_loop_step _ 32) by discriminate.
  change (u8 (Z.shiftl 32 1)) with 64.
  rewrite (drawPixel_loop_step _ 64) by discriminate.
  change (u8 (Z.shiftl 64 1)) with 128.
  rewrite (drawPixel_loop_step _ 128) by discriminate.
  change (u8 (Z.shiftl 128 1)) with 0.
  cbn [drawPixel_loop Z.eqb].
  change (Z.land c8 1) with (Z.land c8 (2 ^ 0)).
  change (Z.land c8 2) with (Z.land c8 (2 ^ 1)).
  change (Z.land c8 4) with (Z.land c8 (2 ^ 2)).
  change (Z.land c8 8) with (Z.land c8 (2 ^ 3)).
  change (Z.land c8 16) with (Z.land c8 (2 ^ 4)).
  change (Z.land c8 32) with (Z.land c8 (2 ^ 5)).
  change (Z.land c8 64) with (Z.land c8 (2 ^ 6)).
  change (Z.land c8 128) with (Z.land c8 (2 ^ 7)).
  rewrite (land_pow2_test c8 0), (land_pow2_test c8 1), (land_pow2_test c8 2),
    (land_pow2_test c8 3), (land_pow2_test c8 4), (land_pow2_test c8 5),
    (land_pow2_test c8 6), (land_pow2_test c8 7) by lia.
  unfold plane_writes. cbn [fold_left].
  replace (p + 24 * 0) with p by lia.
  replace (p + 24 * 1) with (p + 24) by lia.
  replace (p + 24 * 2) with (p + 24 + 24) by lia.
  replace (p + 24 * 3) with (p + 24 + 24 + 24) by lia.
  replace (p + 24 * 4) with (p + 24 + 24 + 24 + 24) by lia.
  replace (p + 24 * 5) with (p + 24 + 24 + 24 + 24 + 24) by lia.
  replace (p + 24 * 6) with (p + 24 + 24 + 24 + 24 + 24 + 24) by lia.
  replace (p + 24 * 7) with (p + 24 + 24 + 24 + 24 + 24 + 24 + 24) by lia.
  reflexivity.
Qed.

Lemma drawPixel_in_range x y c s :
  0 <= x < 8 -> 0 <= y < 8 ->
  drawPixel x y c s
  = set_mem (plane_writes [0; 1; 2; 3; 4; 5; 6; 7] (backBuffer s + y * 3)
               (rowBit 0 x) (rowBit 1 x) (rowBit 2 x) (u8 c) (mem s)) s.
Proof.
  intros Hx Hy. unfold drawPixel.
  replace ((0 <=? x) && (0 <=? y) && (x <? 8) && (y <? 8)) with true by lia.
  rewrite drawPixel_loop_planes. reflexivity.
Qed.

Lemma mem_set_mem v s : mem (set_mem v s) = v.
Proof. destruct s; reflexivity. Qed.

Lemma set_mem_fields v s :
  img0 (set_mem v s) = img0 s /\ img1 (set_mem v s) = img1 s
  /\ plane (set_mem v s) = plane s /\ col (set_mem v s) = col s
  /\ frontIdx (set_mem v s) = frontIdx s.
Proof. destruct s; repeat split. Qed.

(** ** Where the images lie *)

Lemma wf_buffers s :
  wf s = true ->
  (backBuffer s = 0 \/ backBuffer s = bufSize)
  /\ backBuffer s + bufSize <= Z.of_nat (length (mem s))
  /\ (img s (frontIdx s) = 0 \/ img s (frontIdx s) = bufSize)
  /\ img s (frontIdx s) + bufSize <= Z.of_nat (length (mem s))
  /\ (dbuf s = true -> img s (frontIdx s) <> backBuffer s)
  /\ (dbuf s = false -> img s (frontIdx s) = backBuffer s).
Proof.
  intros H. apply wf_inv in H. destruct H as (H0 & H1 & H2 & _).
  unfold backBuffer, img, dbuf, bufSize in *.
  destruct H2 as [E2 | E2]; rewrite E2;
    change (1 - 0 =? 0) with false; change (1 - 1 =? 0) with true;
    change (0 =? 0) with true; change (1 =? 0) with false; cbv iota;
    rewrite ?H0; destruct H1 as [[E1 EL] | [E1 EL]]; rewrite E1;
    (split; [|split; [|split; [|split; [|split]]]]); try lia;
    intros Hd; try lia; try discriminate Hd.
Qed.

Lemma planes_nodup : NoDup [0; 1; 2; 3; 4; 5; 6; 7].
Proof. apply (bool_decide_unpack _). vm_compute. reflexivity. Qed.

Lemma planes_elem k : 0 <= k < 8 -> k ∈ [0; 1; 2; 3; 4; 5; 6; 7].
Proof. intros Hk. enum8 Hk; apply (bool_decide_unpack _); vm_compute; reflexivity. Qed.

Lemma planes_Forall (P : Z -> Prop) :
  (forall k, 0 <= k < 8 -> P k) -> Forall P [0; 1; 2; 3; 4; 5; 6; 7].
Proof. intros H. repeat constructor; apply H; lia. Qed.

(** The bytes drawPixel stores: in plane k, drive group j of row y of the
    back image gets the mask of column x set or cleared by bit k of the
    colour. *)
Lemma drawPixel_load_hit x y c s k j :
  wf s = true -> 0 <= x < 8 -> 0 <= y < 8 -> 0 <= k < 8 -> 0 <= j < 3 ->
  load (mem (drawPixel x y c s)) (backBuffer s + y * 3 + 24 * k + j)
  = upd (Z.testbit (u8 c) k) (rowBit j x)
      (load (mem s) (backBuffer s + y * 3 + 24 * k + j)).
Proof.
  intros Hwf Hx Hy Hk Hj.
  destruct (wf_buffers s Hwf) as (Hb & Hlen & _). unfold bufSize in *.
  rewrite drawPixel_in_range, mem_set_mem by assumption.
  change (rowBit j x) with (mask3 (rowBit 0 x) (rowBit 1 x) (rowBit 2 x) j).
  apply load_plane_writes_hit.
  - apply planes_nodup.
  - apply planes_elem, Hk.
  - assumption.
  - apply planes_Forall. intros; lia.
  - apply planes_Forall. intros; lia.
Qed.

Lemma drawPixel_load_miss x y c s a :
  wf s = true -> 0 <= x < 8 -> 0 <= y < 8 -> 0 <= a ->
  (forall k, 0 <= k < 8 ->
     a < backBuffer s + y * 3 + 24 * k \/ backBuffer s + y * 3 + 24 * k + 2 < a) ->
  load (mem (drawPixel x y c s)) a = load (mem s) a.
Proof.
  intros Hwf Hx Hy Ha Hmiss.
  destruct (wf_buffers s Hwf) as (Hb & Hlen & _). unfold bufSize in *.
  rewrite drawPixel_in_range, mem_set_mem by assumption.
  apply load_plane_writes_miss; [assumption|].
  apply planes_Forall. intros k Hk. split; [lia | apply Hmiss, Hk].
Qed.

Lemma drawPixel_length x y c s :
  length (mem (drawPixel x y c s)) = length (mem s).
Proof.
  unfold drawPixel. destruct (_ && _); [|reflexivity].
  rewrite mem_set_mem, drawPixel_loop_planes. apply length_plane_writes.
Qed.

Lemma Forall_byte_store m a v : Forall byte m -> byte v -> Forall byte (store m a v).
Proof. intros Hm Hv. unfold store. apply Forall_insert; assumption. Qed.

Lemma Forall_byte_plane_write on p b c d m :
  Forall byte m -> Forall byte (plane_write on p b c d m).
Proof.
  intros Hm. unfold plane_write.
  destruct on; repeat apply Forall_byte_store; try assumption;
    unfold or8, andnot8; apply u8_byte.
Qed.

Lemma Forall_byte_plane_writes ks p b c d c8 :
  forall m, Forall byte m -> Forall byte (plane_writes ks p b c d c8 m).
Proof.
  unfold plane_writes. induction ks as [|k ks IH]; intros m Hm; [exact Hm|].
  cbn [fold_left]. apply IH, Forall_byte_plane_write, Hm.
Qed.

Lemma wf_drawPixel x y c s : wf s = true -> wf (drawPixel x y c s) = true.
Proof.
  intros Hwf. pose proof (wf_inv s Hwf) as (H0 & H1 & H2 & H3 & H4 & H5).
  unfold drawPixel. destruct (_ && _); [|exact Hwf].
  rewrite drawPixel_loop_planes.
  match goal with |- wf (set_mem ?v s) = true =>
    destruct (set_mem_fields v s) as (E0 & E1 & E2 & E3 & E4);
    apply wf_intro; rewrite ?E0, ?E1, ?E2, ?E3, ?E4, ?mem_set_mem,
      ?length_plane_writes; try assumption
  end.
  apply Forall_byte_plane_writes, H5.
Qed.

Lemma drawPixel_backBuffer x y c s :
  backBuffer (drawPixel x y c s) = backBuffer s
  /\ img (drawPixel x y c s) (frontIdx (drawPixel x y c s)) = img s (frontIdx s).
Proof.
  unfold drawPixel. destruct (_ && _); [|split; reflexivity].
  destruct s; split; reflexivity.
Qed.

(** ** C1: round trip of the bit-plane encoding *)

Lemma drawPixel_pixel_bit x y c s k :
  wf s = true -> 0 <= x < 8 -> 0 <= y < 8 -> 0 <= k < 8 ->
  pixel_bit (mem (drawPixel x y c s)) (backBuffer s) x y k = Z.testbit (u8 c) k.
Proof.
  intros Hwf Hx Hy Hk.
  destruct (line_range x Hx) as [Hp Hb].
  rewrite pixel_bit_line by assumption.
  rewrite drawPixel_load_hit by assumption.
  rewrite rowBit_line, Z.eqb_refl by assumption.
  rewrite testbit_upd by assumption.
  rewrite Z.pow2_bits_true by lia.
  destruct (Z.testbit (u8 c) k); [apply orb_true_r | apply andb_false_r].
Qed.

(** C1.  After drawPixel(x, y, c) with x, y in [0,7] and c in [0,255],
    the drive-line bit of pixel (x,y) in the plane-k bytes of the back
    image is bit k of c, and the 8-bit number made of these bits is c. *)
Theorem drawPixel_round_trip (x y c : Z) (s : state) :
  wf s = true -> 0 <= x < 8 -> 0 <= y < 8 -> 0 <= c < 256 ->
  (forall k, 0 <= k < 8 ->
     pixel_bit (mem (drawPixel x y c s)) (backBuffer (drawPixel x y c s)) x y k
     = Z.testbit c k)
  /\ intensity (mem (drawPixel x y c s)) (backBuffer (drawPixel x y c s)) x y = c.
Proof.
  intros Hwf Hx Hy Hc.
  destruct (drawPixel_backBuffer x y c s) as [-> _].
  assert (Hbits : forall k, 0 <= k < 8 ->
            pixel_bit (mem (drawPixel x y c s)) (backBuffer s) x y k = Z.testbit c k).
  { intros k Hk. rewrite drawPixel_pixel_bit by assumption.
    rewrite u8_of_byte by exact Hc. reflexivity. }
  split; [exact Hbits|].
  unfold intensity. rewrite (bits8_ext _ (Z.testbit c)) by exact Hbits.
  apply bits8_testbit, Hc.
Qed.

Lemma drawPixel_round_trip_witness :
  wf (boot true) = true
  /\ intensity (mem (drawPixel 3 5 173 (boot true)))
       (backBuffer (drawPixel 3 5 173 (boot true))) 3 5 = 173.
Proof.
  split; [reflexivity|].
  refine (proj2 (drawPixel_round_trip 3 5 173 (boot true) eq_refl _ _ _)); lia.
Defined.

(** ** C10: a write touches one pixel *)

Lemma drawPixel_hit_or_miss y s a :
  wf s = true -> 0 <= y < 8 ->
  (exists k j, 0 <= k < 8 /\ 0 <= j < 3 /\ a = backBuffer s + y * 3 + 24 * k + j)
  \/ (forall k, 0 <= k < 8 ->
        a < backBuffer s + y * 3 + 24 * k \/ backBuffer s + y * 3 + 24 * k + 2 < a).
Proof.
  intros Hwf Hy.
  set (d := a - (backBuffer s + y * 3)).
  destruct (Z_lt_dec d 0) as [Hneg | Hpos]; [right; intros k Hk; lia|].
  destruct (Z_lt_dec d 192) as [Hlt | Hge]; [|right; intros k Hk; lia].
  pose proof (Z.div_mod d 24 ltac:(lia)) as Hdm.
  pose proof (Z.mod_pos_bound d 24 ltac:(lia)) as Hm.
  destruct (Z_lt_dec (d mod 24) 3) as [H3 | H3].
  - left. exists (d / 24), (d mod 24). lia.
  - right. intros k Hk. lia.
Qed.

Lemma exactly_one_table x :
  0 <= x < 8 ->
  (rowBitPortB !!! Z.to_nat x <> 0 /\ rowBitPortC !!! Z.to_nat x = 0
     /\ rowBitPortD !!! Z.to_nat x = 0)
  \/ (rowBitPortB !!! Z.to_nat x = 0 /\ rowBitPortC !!! Z.to_nat x <> 0
     /\ rowBitPortD !!! Z.to_nat x = 0)
  \/ (rowBitPortB !!! Z.to_nat x = 0 /\ rowBitPortC !!! Z.to_nat x = 0
     /\ rowBitPortD !!! Z.to_nat x <> 0).
Proof.
  intros Hx.
  enum8 Hx; vm_compute;
    first [ left; repeat split; first [reflexivity | discriminate]
          | right; left; repeat split; first [reflexivity | discriminate]
          | right; right; repeat split; first [reflexivity | discriminate] ].
Qed.

Lemma drawPixel_bit_changes x y c s a i :
  wf s = true -> 0 <= x < 8 -> 0 <= y < 8 -> 0 <= a -> 0 <= i ->
  Z.testbit (load (mem (drawPixel x y c s)) a) i <> Z.testbit (load (mem s) a) i ->
  exists k, 0 <= k < 8
    /\ a = backBuffer s + y * 3 + 24 * k + port_of x
    /\ rowBit (port_of x) x = 2 ^ i.
Proof.
  intros Hwf Hx Hy Ha Hi Hdiff.
  pose proof (wf_inv s Hwf) as (_ & _ & _ & _ & _ & Hbytes).
  destruct (line_range x Hx) as [Hp Hb].
  destruct (drawPixel_hit_or_miss y s a Hwf Hy) as [(k & j & Hk & Hj & ->) | Hmiss].
  2: { rewrite drawPixel_load_miss in Hdiff by assumption. contradiction. }
  rewrite drawPixel_load_hit in Hdiff by assumption.
  set (old := load (mem s) (backBuffer s + y * 3 + 24 * k + j)) in *.
  assert (Hold : byte old).
  { unfold old, load.
    destruct (le_lt_dec (length (mem s)) (Z.to_nat (backBuffer s + y * 3 + 24 * k + j)))
      as [Hout | Hin].
    - rewrite list_lookup_total_alt, lookup_ge_None_2 by lia. cbn. unfold byte. lia.
    - apply Forall_lookup_total_1; [exact Hbytes | lia]. }
  rewrite rowBit_line in Hdiff by assumption.
  destruct (Z.eqb_spec j (port_of x)) as [-> | Hne].
  2: { rewrite upd_zero in Hdiff by exact Hold. contradiction. }
  exists k. split; [exact Hk|]. split; [reflexivity|].
  rewrite rowBit_line, Z.eqb_refl by assumption.
  destruct (Z.lt_ge_cases i 8) as [Hlt | Hge].
  - rewrite testbit_upd in Hdiff by lia.
    rewrite Z.pow2_bits_eqb in Hdiff by lia.
    destruct (Z.eqb_spec (bit_of x) i) as [-> | Hbi]; [reflexivity|].
    exfalso. apply Hdiff.
    destruct (Z.testbit (u8 c) k); [apply orb_false_r | apply andb_true_r].
  - exfalso. apply Hdiff.
    rewrite !testbit_byte_high; auto using upd_byte.
Qed.

Lemma drawPixel_other_pixel_bit x y c s base x' y' k :
  wf s = true -> 0 <= x < 8 -> 0 <= y < 8 ->
  base = img s 0 \/ base = img s 1 ->
  0 <= x' < 8 -> 0 <= y' < 8 -> (x', y') <> (x, y) -> 0 <= k < 8 ->
  pixel_bit (mem (drawPixel x y c s)) base x' y' k = pixel_bit (mem s) base x' y' k.
Proof.
  intros Hwf Hx Hy Hbase Hx' Hy' Hne Hk.
  pose proof (wf_inv s Hwf) as (H0 & H1 & H2 & _).
  destruct (wf_buffers s Hwf) as (Hb & Hlen & _). unfold bufSize in *.
  assert (Hbase' : base = 0 \/ base = 192).
  { unfold img in Hbase. cbn in Hbase. rewrite H0 in Hbase.
    destruct Hbase as [-> | ->]; [left; reflexivity|].
    destruct H1 as [[-> _] | [-> _]]; [left | right]; reflexivity. }
  destruct (line_range x Hx) as [Hp Hbx]. destruct (line_range x' Hx') as [Hp' Hbx'].
  rewrite !pixel_bit_line by assumption.
  destruct (Z.eq_dec base (backBuffer s)) as [-> | Hbne].
  - destruct (Z.eq_dec y' y) as [-> | Hyne].
    + assert (x' <> x) as Hxne by congruence.
      rewrite drawPixel_load_hit by assumption.
      rewrite testbit_upd by assumption.
      rewrite rowBit_line by assumption.
      assert (Z.testbit (if port_of x' =? port_of x then 2 ^ bit_of x else 0)
                (bit_of x') = false) as ->.
      { destruct (Z.eqb_spec (port_of x') (port_of x)) as [Ep | _];
          [|apply Z.bits_0].
        rewrite Z.pow2_bits_eqb by lia.
        apply Z.eqb_neq. intros Eb. apply Hxne. symmetry.
        apply line_inj; auto. }
      destruct (Z.testbit (u8 c) k); [apply orb_false_r | apply andb_true_r].
    + rewrite drawPixel_load_miss; try assumption; [reflexivity | lia |].
      intros k0 Hk0. lia.
  - rewrite drawPixel_load_miss; try assumption; [reflexivity | lia |].
    intros k0 Hk0. lia.
Qed.

(** C10.  For x in [0,7] exactly one of the three tables has a non-zero
    mask.  An in-range drawPixel(x, y, c) changes a bit of the block
    only in the byte of that drive group in row y of some plane of the
    back image, and only the bit of the mask; the intensity encoded for
    any other pixel, in either image, stays what it was. *)
Theorem drawPixel_isolation (x y c : Z) (s : state) :
  wf s = true -> 0 <= x < 8 -> 0 <= y < 8 ->
  ((rowBitPortB !!! Z.to_nat x <> 0 /\ rowBitPortC !!! Z.to_nat x = 0
      /\ rowBitPortD !!! Z.to_nat x = 0)
   \/ (rowBitPortB !!! Z.to_nat x = 0 /\ rowBitPortC !!! Z.to_nat x <> 0
      /\ rowBitPortD !!! Z.to_nat x = 0)
   \/ (rowBitPortB !!! Z.to_nat x = 0 /\ rowBitPortC !!! Z.to_nat x = 0
      /\ rowBitPortD !!! Z.to_nat x <> 0))
  /\ (forall a i, 0 <= a -> 0 <= i ->
        Z.testbit (load (mem (drawPixel x y c s)) a) i
          <> Z.testbit (load (mem s) a) i ->
        exists k, 0 <= k < 8
          /\ a = backBuffer s + y * 3 + 24 * k + port_of x
          /\ rowBit (port_of x) x = 2 ^ i)
  /\ (forall base x' y',
        base = img s 0 \/ base = img s 1 ->
        0 <= x' < 8 -> 0 <= y' < 8 -> (x', y') <> (x, y) ->
        intensity (mem (drawPixel x y c s)) base x' y'
        = intensity (mem s) base x' y').
Proof.
  intros Hwf Hx Hy. split; [|split].
  - apply exactly_one_table, Hx.
  - intros a i Ha Hi. apply drawPixel_bit_changes; assumption.
  - intros base x' y' Hbase Hx' Hy' Hne. unfold intensity.
    apply bits8_ext. intros k Hk.
    apply drawPixel_other_pixel_bit; assumption.
Qed.

Lemma drawPixel_isolation_witness :
  wf (boot false) = true
  /\ intensity (mem (drawPixel 2 6 255 (boot false))) (img (boot false) 0) 5 6
     = intensity (mem (boot false)) (img (boot false) 0) 5 6.
Proof.
  split; [reflexivity|].
  destruct (drawPixel_isolation 2 6 255 (boot false) eq_refl ltac:(lia) ltac:(lia))
    as (_ & _ & H).
  apply H; [left; reflexivity | lia | lia | discriminate].
Defined.

(** ** C6: the front image *)

Lemma lookup_of_load (m m' : list Z) a :
  length m' = length m -> load m' a = load m a ->
  m' !! Z.to_nat a = m !! Z.to_nat a.
Proof.
  unfold load. intros Hlen Hload.
  destruct (le_lt_dec (length m) (Z.to_nat a)) as [Hout | Hin].
  - rewrite !lookup_ge_None_2 by lia. reflexivity.
  - rewrite (list_lookup_lookup_total_lt m') by lia.
    rewrite (list_lookup_lookup_total_lt m) by lia.
    f_equal. exact Hload.
Qed.

Lemma buffer_ext (m m' : list Z) base :
  0 <= base -> length m' = length m ->
  (forall a, base <= a < base + bufSize -> load m' a = load m a) ->
  buffer m' base = buffer m base.
Proof.
  intros Hbase Hlen Hload. unfold buffer. apply list_eq. intros i.
  rewrite !lookup_take, !lookup_drop.
  destruct (decide (i < Z.to_nat bufSize)%nat) as [Hi | Hi]; [|reflexivity].
  replace (Z.to_nat base + i)%nat with (Z.to_nat (base + Z.of_nat i)) by lia.
  apply lookup_of_load; [exact Hlen|].
  apply Hload. lia.
Qed.

(** C6, as amended.  In double-buffered mode drawPixel leaves every
    byte of the front image as it was, for all arguments; in
    single-buffered mode the front image is the back image. *)
Theorem drawPixel_front_unchanged (x y c : Z) (s : state) :
  wf s = true ->
  (dbuf s = true -> front_buffer (drawPixel x y c s) = front_buffer s)
  /\ (dbuf s = false ->
        front_buffer (drawPixel x y c s) = back_buffer (drawPixel x y c s)).
Proof.
  intros Hwf.
  destruct (wf_buffers s Hwf) as (Hb & Hblen & Hf & Hflen & Hd & Hs).
  unfold front_buffer, back_buffer.
  destruct (drawPixel_backBuffer x y c s) as [Eb Ef].
  fold (backBuffer (drawPixel x y c s)). rewrite Eb, Ef.
  split.
  - intros Hdb. specialize (Hd Hdb).
    destruct (Z_le_dec 0 x), (Z_lt_dec x 8), (Z_le_dec 0 y), (Z_lt_dec y 8);
      try (destruct (drawPixel_out_of_range x y c s ltac:(lia)) as [-> _];
           reflexivity).
    apply buffer_ext; [unfold bufSize in *; lia | apply drawPixel_length |].
    unfold bufSize in *. intros a Ha.
    apply drawPixel_load_miss; try assumption; lia.
  - intros Hsb. rewrite (Hs Hsb). reflexivity.
Qed.

Lemma drawPixel_front_unchanged_witness :
  wf (boot true) = true /\ dbuf (boot true) = true
  /\ front_buffer (drawPixel 0 0 255 (boot true)) = front_buffer (boot true).
Proof.
  split; [reflexivity | split; [reflexivity|]].
  exact (proj1 (drawPixel_front_unchanged 0 0 255 (boot true) eq_refl) eq_refl).
Defined.

(** In single-buffered mode both image pointers are the same address, so
    drawPixel(0, 0, 255) sets bit 4 of the PORTD byte of row 0 in every
    plane of the image being displayed. *)
Lemma drawPixel_single_buffer_changes_front :
  wf (boot false) = true
  /\ load (mem (boot false)) (img (boot false) (frontIdx (boot false)) + 2) = 0xCC
  /\ load (mem (drawPixel 0 0 255 (boot false)))
       (img (boot false) (frontIdx (boot false)) + 2) = 0xDC
  /\ front_buffer (drawPixel 0 0 255 (boot false)) <> front_buffer (boot false).
Proof.
  split; [reflexivity | split; [reflexivity | split; [reflexivity|]]].
  vm_compute. discriminate.
Qed.

(** ** C5: swap with copy forward *)

Lemma wf_of_display s s' :
  mem s' = mem s -> img0 s' = img0 s -> img1 s' = img1 s ->
  plane s' = plane s -> col s' = col s -> frontIdx s' = frontIdx s ->
  wf s = true -> wf s' = true.
Proof.
  intros Em E0 E1 Ep Ec Ef Hwf. unfold wf in *.
  rewrite Em, E0, E1, Ep, Ec, Ef. exact Hwf.
Qed.

Lemma wf_fire e s : wf s = true -> wf (fire e s) = true.
Proof.
  intros Hwf. destruct e as [|pind|]; cbn [fire].
  - apply wf_TIMER1, Hwf.
  - destruct (INT0_display pind s) as (Em & E0 & E1 & Ep & Ec & _ & Ef & _).
    eapply wf_of_display; eassumption.
  - destruct (timer2_enabled s); [|exact Hwf].
    destruct (TIMER2_display s) as (Em & E0 & E1 & Ep & Ec & _ & Ef & _).
    eapply wf_of_display; eassumption.
Qed.

Lemma fire_mem e s :
  mem (fire e s) = mem s /\ img0 (fire e s) = img0 s /\ img1 (fire e s) = img1 s.
Proof.
  destruct e as [|pind|]; cbn [fire].
  - rewrite TIMER1_mem. pose proof (TIMER1_img s 0). pose proof (TIMER1_img s 1).
    auto.
  - destruct (INT0_display pind s) as (Em & E0 & E1 & _). auto.
  - destruct (timer2_enabled s); [|auto].
    destruct (TIMER2_display s) as (Em & E0 & E1 & _). auto.
Qed.

Lemma swap_committed_flag_cases s :
  wf s = true ->
  (frame_end s = true ->
     plane (TIMER1_COMPA s) = 0
     /\ swapFlag (TIMER1_COMPA s) = false
     /\ frontIdx (TIMER1_COMPA s) = (if swapFlag s then 1 - frontIdx s else frontIdx s)
     /\ frames (TIMER1_COMPA s) = u16 (frames s + 1))
  /\ (frame_end s = false ->
       swapFlag (TIMER1_COMPA s) = swapFlag s
       /\ frontIdx (TIMER1_COMPA s) = frontIdx s
       /\ frames (TIMER1_COMPA s) = frames s).
Proof.
  intros Hwf. pose proof (wf_inv s Hwf) as (_ & _ & Hfi & Hpl & Hcl & _).
  split; intros E.
  - destruct (TIMER1_commit s Hpl Hfi E) as (H1 & H2 & H3 & H4 & _). auto.
  - destruct (TIMER1_no_commit s Hpl Hcl E) as (H1 & H2 & H3 & _). auto.
Qed.

(** One interrupt while the application waits: either it is the fire
    that ends the frame, which clears the flag and flips the front
    index, or the flag and the index stay. *)
Lemma fire_swap e s :
  wf s = true -> swapFlag s = true ->
  (swapFlag (fire e s) = false /\ frontIdx (fire e s) = 1 - frontIdx s
   /\ e = IrqTimer1 /\ fires_left s = 1)
  \/ (swapFlag (fire e s) = true /\ frontIdx (fire e s) = frontIdx s
      /\ fires_left (fire e s) = fires_left s - (if is_timer1 e then 1 else 0)
      /\ (e = IrqTimer1 -> 1 < fires_left s)).
Proof.
  intros Hwf Hflag.
  destruct (swap_committed_flag_cases s Hwf) as (Hend & Hnot).
  pose proof (wf_inv s Hwf) as (_ & _ & _ & Hpl & Hcl & _).
  destruct e as [|pind|]; cbn [fire is_timer1].
  - destruct (frame_end s) eqn:E.
    + left. destruct (Hend eq_refl) as (_ & H1 & H2 & _).
      rewrite Hflag in H2. unfold frame_end in E. apply andb_true_iff in E.
      destruct E as [Ec Ep]. apply Z.eqb_eq in Ec, Ep.
      unfold fires_left. rewrite Ec, Ep. auto.
    + right. destruct (Hnot eq_refl) as (H1 & H2 & _).
      rewrite H1, H2. split; [exact Hflag | split; [reflexivity|]].
      unfold fires_left, frame_end in *. rewrite TIMER1_plane, TIMER1_col.
      revert E. generalize (plane s) (col s) Hpl Hcl. clear.
      intros pl c Hpl Hcl E.
      enum8 Hcl; enum8 Hpl; cbn in E; try discriminate E;
        vm_compute; (split; [reflexivity | intros _; reflexivity]).
  - right. destruct (INT0_display pind s) as (_ & _ & _ & Ep & Ec & _ & Ef & Es & _).
    unfold fires_left. rewrite Es, Ef, Ep, Ec.
    split; [exact Hflag | split; [reflexivity | split; [lia | discriminate]]].
  - right. destruct (timer2_enabled s).
    + destruct (TIMER2_display s) as (_ & _ & _ & Ep & Ec & _ & Ef & Es & _).
      unfold fires_left. rewrite Es, Ef, Ep, Ec.
      split; [exact Hflag | split; [reflexivity | split; [lia | discriminate]]].
    + split; [exact Hflag | split; [reflexivity | split; [lia | discriminate]]].
Qed.

Lemma fires_left_range s : wf s = true -> 1 <= fires_left s <= 64.
Proof.
  intros Hwf. pose proof (wf_inv s Hwf) as (_ & _ & _ & Hpl & Hcl & _).
  unfold fires_left. revert Hpl Hcl. generalize (plane s) (col s).
  intros pl c Hpl Hcl.
  enum8 Hcl; change (_ !!! _) with 8 || change (_ !!! _) with 4
    || change (_ !!! _) with 6 || change (_ !!! _) with 2
    || change (_ !!! _) with 7 || change (_ !!! _) with 3
    || change (_ !!! _) with 5 || change (_ !!! _) with 1; lia.
Qed.

(** The wait ends: once the interrupts that arrive contain as many
    fires of the refresh interrupt as the frame has left, the flag has
    been seen clear. *)
Lemma swap_wait_returns evs :
  forall s, wf s = true -> fires_left s <= count_timer1 evs ->
  exists s', swap_wait evs s = Some s'.
Proof.
  induction evs as [|e evs IH]; intros s Hwf Hcount.
  - pose proof (fires_left_range s Hwf). unfold count_timer1 in Hcount.
    cbn in Hcount. lia.
  - cbn [swap_wait]. destruct (swapFlag s) eqn:Hflag; [|eauto].
    destruct (fire_swap e s Hwf Hflag)
      as [(Hclear & _) | (Hkeep & _ & Hleft & Hmore)].
    + exists (fire e s). destruct evs; cbn [swap_wait]; rewrite Hclear; reflexivity.
    + apply IH; [apply wf_fire, Hwf|].
      rewrite Hleft. unfold count_timer1 in *.
      destruct e; cbn [is_timer1] in *;
        rewrite ?filter_cons_True, ?filter_cons_False in Hcount
          by (cbn; congruence);
        cbn [length] in Hcount; lia.
Qed.

(** What the wait leaves: the block as it was, the flag clear and,
    if the flag was set, the other image in front. *)
Lemma swap_wait_result evs :
  forall s s', wf s = true -> swap_wait evs s = Some s' ->
  wf s' = true /\ swapFlag s' = false
  /\ mem s' = mem s /\ img0 s' = img0 s /\ img1 s' = img1 s
  /\ frontIdx s' = (if swapFlag s then 1 - frontIdx s else frontIdx s).
Proof.
  induction evs as [|e evs IH]; intros s s' Hwf Hw.
  - cbn [swap_wait] in Hw. destruct (swapFlag s) eqn:Hflag; [discriminate|].
    injection Hw as <-. auto 10.
  - cbn [swap_wait] in Hw. destruct (swapFlag s) eqn:Hflag.
    2: { injection Hw as <-. rewrite Hflag. auto 10. }
    destruct (fire_mem e s) as (Em & E0 & E1).
    destruct (IH _ _ (wf_fire e s Hwf) Hw) as (H1 & H2 & H3 & H4 & H5 & H6).
    rewrite H3, H4, H5, Em, E0, E1.
    repeat (split; [assumption || reflexivity|]).
    rewrite H6.
    destruct (fire_swap e s Hwf Hflag) as [(Hc & Hf & _) | (Hk & Hf & _)].
    + rewrite Hc. exact Hf.
    + rewrite Hk, Hf. reflexivity.
Qed.

(** ** memcpy *)

Lemma lookup_memcpy (m : list Z) dst src n i :
  0 <= dst -> 0 <= src -> 0 <= n ->
  dst + n <= Z.of_nat (length m) -> src + n <= Z.of_nat (length m) ->
  memcpy dst src n m !! i =
    if decide (Z.to_nat dst <= i < Z.to_nat (dst + n))%nat
    then m !! (Z.to_nat src + (i - Z.to_nat dst))%nat
    else m !! i.
Proof.
  intros Hd Hs Hn Hdl Hsl. unfold memcpy.
  rewrite lookup_app, lookup_take.
  destruct (decide (i < Z.to_nat dst)%nat) as [Hlt | Hge].
  - rewrite decide_False by lia.
    destruct (m !! i) eqn:E; [reflexivity|].
    apply lookup_ge_None in E. lia.
  - rewrite length_take. replace (Z.to_nat dst `min` length m)%nat with (Z.to_nat dst) by lia.
    rewrite lookup_app, lookup_take, lookup_drop.
    destruct (decide (i - Z.to_nat dst < Z.to_nat n)%nat) as [Hin | Hout].
    + rewrite decide_True by lia.
      destruct (m !! (Z.to_nat src + (i - Z.to_nat dst))%nat) eqn:E; [reflexivity|].
      apply lookup_ge_None in E. lia.
    + rewrite decide_False by lia.
      rewrite length_take, length_drop, lookup_drop. f_equal. lia.
Qed.


Lemma buffer_memcpy_dst (m : list Z) dst src :
  0 <= dst -> 0 <= src ->
  dst + bufSize <= Z.of_nat (length m) -> src + bufSize <= Z.of_nat (length m) ->
  buffer (memcpy dst src bufSize m) dst = buffer m src.
Proof.
  intros Hd Hs Hdl Hsl. unfold buffer. apply list_eq. intros i.
  rewrite !lookup_take, !lookup_drop.
  destruct (decide (i < Z.to_nat bufSize)%nat) as [Hi | Hi]; [|reflexivity].
  rewrite lookup_memcpy by (unfold bufSize in *; lia).
  rewrite decide_True by (unfold bufSize in *; lia).
  f_equal. lia.
Qed.

Lemma buffer_memcpy_src (m : list Z) dst src :
  0 <= dst -> 0 <= src ->
  dst + bufSize <= Z.of_nat (length m) -> src + bufSize <= Z.of_nat (length m) ->
  dst = src \/ dst + bufSize <= src \/ src + bufSize <= dst ->
  buffer (memcpy dst src bufSize m) src = buffer m src.
Proof.
  intros Hd Hs Hdl Hsl Hsep.
  destruct Hsep as [-> | Hsep]; [apply buffer_memcpy_dst; assumption|].
  unfold buffer. apply list_eq. intros i.
  rewrite !lookup_take, !lookup_drop.
  destruct (decide (i < Z.to_nat bufSize)%nat) as [Hi | Hi]; [|reflexivity].
  rewrite lookup_memcpy by (unfold bufSize in *; lia).
  rewrite decide_False by (unfold bufSize in *; lia).
  reflexivity.
Qed.

Lemma set_swapFlag_fields v s :
  mem (set_swapFlag v s) = mem s /\ img0 (set_swapFlag v s) = img0 s
  /\ img1 (set_swapFlag v s) = img1 s /\ plane (set_swapFlag v s) = plane s
  /\ col (set_swapFlag v s) = col s /\ frontIdx (set_swapFlag v s) = frontIdx s
  /\ swapFlag (set_swapFlag v s) = v.
Proof. destruct s; repeat split. Qed.

(** C5.  In double-buffered mode swapBuffers(true) returns as soon as
    the interrupts that arrive contain the fires left in the frame (64
    always suffice), whatever button interrupts come in between; and
    when it returns the back image equals the front image byte for
    byte, the front image being the one that was the back image at the
    call. *)
Theorem swapBuffers_copy_forward (s : state) :
  wf s = true -> dbuf s = true ->
  (forall evs, 64 <= count_timer1 evs ->
     exists s', swapBuffers true evs s = Some s')
  /\ (forall evs s', swapBuffers true evs s = Some s' ->
        back_buffer s' = front_buffer s'
        /\ length (back_buffer s') = Z.to_nat bufSize
        /\ front_buffer s' = back_buffer s
        /\ frontIdx s' = 1 - frontIdx s).
Proof.
  intros Hwf Hdbuf.
  destruct (set_swapFlag_fields true s) as (Fm & F0 & F1 & Fp & Fc & Ff & Fs).
  assert (Hwf0 : wf (set_swapFlag true s) = true)
    by (eapply wf_of_display; eassumption).
  split.
  - intros evs Hcount. unfold swapBuffers.
    destruct (swap_wait_returns evs (set_swapFlag true s) Hwf0) as [s1 ->].
    + pose proof (fires_left_range _ Hwf0). lia.
    + eauto.
  - intros evs s' Hret. unfold swapBuffers in Hret.
    destruct (swap_wait evs (set_swapFlag true s)) as [s1|] eqn:Hw; [|discriminate].
    injection Hret as <-.
    destruct (swap_wait_result evs _ _ Hwf0 Hw) as (Hwf1 & _ & Em & E0 & E1 & Ef).
    rewrite Fs, Ff in Ef. rewrite Fm in Em. rewrite F0 in E0. rewrite F1 in E1.
    destruct (wf_buffers s1 Hwf1) as (Hb & Hbl & Hf & Hfl & Hd & _).
    assert (Hdbuf1 : dbuf s1 = true) by (unfold dbuf in *; rewrite E1; exact Hdbuf).
    specialize (Hd Hdbuf1). unfold backBuffer in *.
    set (m' := memcpy (img s1 (1 - frontIdx s1)) (img s1 (frontIdx s1)) bufSize (mem s1)).
    assert (Hfront : front_buffer (set_mem m' s1) = buffer m' (img s1 (frontIdx s1)))
      by (destruct s1; reflexivity).
    assert (Hback : back_buffer (set_mem m' s1) = buffer m' (img s1 (1 - frontIdx s1)))
      by (destruct s1; reflexivity).
    assert (Hfi : frontIdx (set_mem m' s1) = frontIdx s1) by (destruct s1; reflexivity).
    rewrite Hfront, Hback, Hfi. unfold m'.
    rewrite buffer_memcpy_dst by (unfold bufSize in *; lia).
    rewrite buffer_memcpy_src by (unfold bufSize in *; lia).
    split; [reflexivity|]. split; [|split; [|exact Ef]].
    + unfold buffer. rewrite length_take, length_drop. unfold bufSize in *. lia.
    + unfold back_buffer. rewrite Em, Ef. unfold img. rewrite E0, E1. reflexivity.
Qed.

Lemma swapBuffers_copy_forward_witness :
  wf (drawPixel 1 2 200 (boot true)) = true
  /\ dbuf (drawPixel 1 2 200 (boot true)) = true
  /\ exists s',
       swapBuffers true [IrqTimer1] (drawPixel 1 2 200 (boot true)) = Some s'
       /\ back_buffer s' = front_buffer s'.
Proof.
  split; [reflexivity | split; [reflexivity|]].
  eexists. split; [reflexivity|].
  refine (proj1 (proj2 (swapBuffers_copy_forward (drawPixel 1 2 200 (boot true))
                          eq_refl eq_refl) [IrqTimer1] _ eq_refl)).
Defined.

(** ** Buttons *)

Lemma toie2_after_disable a : Z.testbit (andnot8 a (_BV TOIE2)) TOIE2 = false.
Proof.
  unfold andnot8, _BV, TOIE2. rewrite testbit_u8_low by lia.
  rewrite Z.land_spec, Z.lnot_spec by lia. apply andb_false_r.
Qed.

Lemma toie2_after_enable a : Z.testbit (or8 a (_BV TOIE2)) TOIE2 = true.
Proof.
  unfold or8, _BV, TOIE2. rewrite testbit_u8_low by lia.
  rewrite Z.lor_spec. apply orb_true_r.
Qed.

(** A press: an edge with a mask that is neither idle nor the one seen
    last restarts the counter and enables the overflow interrupt. *)
Lemma INT0_press pind s :
  Z.land pind 12 <> 12 -> Z.land pind 12 <> bSave s ->
  bSave (INT0 pind s) = Z.land pind 12
  /\ bCount (INT0 pind s) = 0
  /\ bAction (INT0 pind s) = bAction s
  /\ timer2_enabled (INT0 pind s) = true.
Proof.
  intros Hidle Hnew. unfold INT0, timer2_enabled.
  change (Z.lor (_BV PORTD3) (_BV PORTD2)) with 12.
  destruct (Z.eqb_spec (Z.land pind 12) 12) as [|_]; [contradiction|].
  destruct (Z.eqb_spec (Z.land pind 12) (bSave s)) as [|_]; [contradiction|].
  destruct s; cbn. repeat split. apply toie2_after_enable.
Qed.

(** A release: the overflow interrupt is disabled, a count above 2
    turns the last single-button mask into a tap, and the mask seen
    last becomes idle. *)
Lemma INT0_release pind s :
  Z.land pind 12 = 12 ->
  bSave (INT0 pind s) = 12
  /\ bCount (INT0 pind s) = bCount s
  /\ timer2_enabled (INT0 pind s) = false
  /\ bAction (INT0 pind s) =
       if 2 <? bCount s then
         if bSave s =? 8 then ACTION_TAP_LEFT
         else if bSave s =? 4 then ACTION_TAP_RIGHT
         else bAction s
       else bAction s.
Proof.
  intros Hidle. unfold INT0, timer2_enabled.
  change (Z.lor (_BV PORTD3) (_BV PORTD2)) with 12.
  change (_BV PORTD3) with 8. change (_BV PORTD2) with 4.
  rewrite Hidle. cbn [Z.eqb Pos.eqb].
  destruct s; cbn.
  split_ifs; cbn; repeat split; apply toie2_after_disable.
Qed.

Lemma set_bCount_fields v s :
  bSave (set_bCount v s) = bSave s /\ bCount (set_bCount v s) = v
  /\ bAction (set_bCount v s) = bAction s
  /\ timer2_enabled (set_bCount v s) = timer2_enabled s.
Proof. destruct s; repeat split. Qed.

Lemma set_bCount_twice v w s : set_bCount v (set_bCount w s) = set_bCount v s.
Proof. destruct s; reflexivity. Qed.

Lemma set_bCount_same s : set_bCount (bCount s) s = s.
Proof. destruct s; reflexivity. Qed.

(** While the count is below 76 an overflow only counts. *)
Lemma ticks_count n :
  forall s, timer2_enabled s = true -> 0 <= bCount s ->
  bCount s + Z.of_nat n <= 76 ->
  ticks n s = set_bCount (bCount s + Z.of_nat n) s.
Proof.
  unfold ticks. induction n as [|n IH]; intros s Hen Hpos Hle.
  - cbn [repeat_fire]. rewrite Z.add_0_r. symmetry. apply set_bCount_same.
  - cbn [repeat_fire fire]. rewrite Hen. unfold TIMER2_OVF.
    destruct (Z.leb_spec 76 (bCount s)) as [Hge | Hlt]; [lia|].
    unfold u8. rewrite Z.mod_small by lia.
    destruct (set_bCount_fields (bCount s + 1) s) as (_ & Hc & _ & He).
    rewrite IH; rewrite ?Hc, ?He; try assumption; try lia.
    rewrite set_bCount_twice. f_equal. lia.
Qed.

(** The overflow that finds the count at 76 emits the hold action of
    the mask seen last and stops its own interrupt. *)
Lemma tick_hold s :
  timer2_enabled s = true -> 76 <= bCount s -> pressed (bSave s) = true ->
  bAction (fire IrqTimer2 s) = hold_of (bSave s)
  /\ timer2_enabled (fire IrqTimer2 s) = false
  /\ bSave (fire IrqTimer2 s) = 0
  /\ bCount (fire IrqTimer2 s) = 0.
Proof.
  intros Hen Hge Hpr. cbn [fire]. rewrite Hen. unfold TIMER2_OVF, timer2_enabled, hold_of.
  destruct (Z.leb_spec 76 (bCount s)) as [_ | Hlt]; [|lia].
  change (_BV PORTD3) with 8. change (_BV PORTD2) with 4.
  unfold pressed in Hpr.
  destruct s as [m i0 i1 pl c p fi bs bc ba sf fr pb pc pd oc t1 t2 tk].
  cbn in *.
  destruct (bs =? 8), (bs =? 4), (bs =? 0); try discriminate Hpr;
    cbn; repeat split; apply toie2_after_disable.
Qed.

Lemma ticks_disabled n : forall s, timer2_enabled s = false -> ticks n s = s.
Proof.
  unfold ticks. induction n as [|n IH]; intros s Hen; [reflexivity|].
  cbn [repeat_fire fire]. rewrite Hen. apply IH, Hen.
Qed.

Lemma repeat_fire_add n m e s :
  repeat_fire (n + m) e s = repeat_fire m e (repeat_fire n e s).
Proof.
  revert s. induction n as [|n IH]; intros s; [reflexivity|].
  cbn [repeat_fire Nat.add]. apply IH.
Qed.

Lemma ticks_add n m s : ticks (n + m) s = ticks m (ticks n s).
Proof. apply repeat_fire_add. Qed.

Lemma ticks_one s : ticks 1 s = fire IrqTimer2 s.
Proof. reflexivity. Qed.

(** The state [n] overflows after a press, for n up to 76: counting. *)
Lemma press_then_ticks pind s n :
  Z.land pind 12 <> 12 -> Z.land pind 12 <> bSave s -> (n <= 76)%nat ->
  bSave (ticks n (INT0 pind s)) = Z.land pind 12
  /\ bCount (ticks n (INT0 pind s)) = Z.of_nat n
  /\ bAction (ticks n (INT0 pind s)) = bAction s
  /\ timer2_enabled (ticks n (INT0 pind s)) = true.
Proof.
  intros Hidle Hnew Hn.
  destruct (INT0_press pind s Hidle Hnew) as (Hs & Hc & Ha & He).
  rewrite ticks_count by (rewrite ?Hc; try assumption; lia).
  destruct (set_bCount_fields (bCount (INT0 pind s) + Z.of_nat n) (INT0 pind s))
    as (Fs & Fc & Fa & Fe).
  rewrite Fs, Fc, Fa, Fe, Hc. auto.
Qed.

(** The state [n] overflows after a press, for n from 77 on: the hold
    action is pending and the overflow interrupt is off. *)
Lemma press_then_hold pind s n :
  pressed (Z.land pind 12) = true -> Z.land pind 12 <> bSave s -> (77 <= n)%nat ->
  bAction (ticks n (INT0 pind s)) = hold_of (Z.land pind 12)
  /\ timer2_enabled (ticks n (INT0 pind s)) = false
  /\ bSave (ticks n (INT0 pind s)) = 0
  /\ bCount (ticks n (INT0 pind s)) = 0.
Proof.
  intros Hpr Hnew Hn.
  assert (Hidle : Z.land pind 12 <> 12) by (unfold pressed in Hpr; lia).
  replace n with (76 + (1 + (n - 77)))%nat by lia.
  rewrite (ticks_add 76 (1 + (n - 77))), (ticks_add 1 (n - 77)), ticks_one.
  destruct (press_then_ticks pind s 76 Hidle Hnew ltac:(lia)) as (Hs & Hc & Ha & He).
  set (s1 := ticks 76 (INT0 pind s)) in *.
  assert (Hge : 76 <= bCount s1) by (rewrite Hc; lia).
  assert (Hpr1 : pressed (bSave s1) = true) by (rewrite Hs; exact Hpr).
  destruct (tick_hold s1 He Hge Hpr1) as (Ta & Te & Ts & Tc).
  rewrite ticks_disabled by exact Te.
  rewrite Ta, Hs. auto.
Qed.

Lemma action_poll_fields s :
  fst (action_poll s) = bAction s
  /\ bAction (snd (action_poll s)) = ACTION_NONE
  /\ bSave (snd (action_poll s)) = bSave s
  /\ bCount (snd (action_poll s)) = bCount s
  /\ timer2_enabled (snd (action_poll s)) = timer2_enabled s.
Proof. destruct s; repeat split. Qed.

(** ** C8: hold *)

(** C8, as amended.  From idle, a press held for at least 77 overflows
    of Timer2: nothing is emitted during the first 76; the 77th emits
    the hold action of the buttons that are down and stops the overflow
    interrupt; further overflows change nothing; the release leaves the
    pending action as it is; and once the action has been polled,
    neither further holding nor the release makes another one pending. *)
Theorem hold_fires_once (s : state) (pind rel : Z) (n m : nat) :
  bSave s = 12 -> pressed (Z.land pind 12) = true -> Z.land rel 12 = 12 ->
  (77 <= n)%nat ->
  bAction (ticks 76 (INT0 pind s)) = bAction s
  /\ bAction (ticks n (INT0 pind s)) = hold_of (Z.land pind 12)
  /\ timer2_enabled (ticks n (INT0 pind s)) = false
  /\ ticks m (ticks n (INT0 pind s)) = ticks n (INT0 pind s)
  /\ bAction (INT0 rel (ticks m (ticks n (INT0 pind s)))) = hold_of (Z.land pind 12)
  /\ fst (action_poll (ticks n (INT0 pind s))) = hold_of (Z.land pind 12)
  /\ bAction (ticks m (snd (action_poll (ticks n (INT0 pind s))))) = ACTION_NONE
  /\ bAction (INT0 rel (ticks m (snd (action_poll (ticks n (INT0 pind s))))))
     = ACTION_NONE.
Proof.
  intros Hidle Hpr Hrel Hn.
  assert (Hne : Z.land pind 12 <> 12) by (unfold pressed in Hpr; lia).
  assert (Hnew : Z.land pind 12 <> bSave s) by (rewrite Hidle; exact Hne).
  destruct (press_then_ticks pind s 76 Hne Hnew ltac:(lia)) as (_ & _ & Hquiet & _).
  destruct (press_then_hold pind s n Hpr Hnew Hn) as (Ha & He & Hs & Hc).
  set (held := ticks n (INT0 pind s)) in *.
  destruct (action_poll_fields held) as (P1 & P2 & P3 & P4 & P5).
  set (polled := snd (action_poll held)) in *.
  split; [exact Hquiet|].
  rewrite (ticks_disabled m held) by exact He.
  rewrite (ticks_disabled m polled) by (rewrite P5; exact He).
  destruct (INT0_release rel held Hrel) as (_ & _ & _ & R).
  destruct (INT0_release rel polled Hrel) as (_ & _ & _ & R').
  rewrite R, R', P4, Hc, P1, P2, Ha. cbn [Z.ltb Z.compare].
  repeat split; assumption || reflexivity.
Qed.

Lemma hold_fires_once_witness :
  bAction (ticks 77 (INT0 8 (boot false))) = ACTION_HOLD_LEFT
  /\ bAction (INT0 12 (ticks 9 (snd (action_poll (ticks 77 (INT0 8 (boot false)))))))
     = ACTION_NONE.
Proof.
  destruct (hold_fires_once (boot false) 8 12 77 9 eq_refl eq_refl eq_refl ltac:(lia))
    as (_ & H1 & _ & _ & _ & _ & _ & H2).
  split; [exact H1 | exact H2].
Defined.

(** A press of the left button held for exactly 76 overflows: no hold
    action yet, the overflow interrupt still running, and a release at
    that point is classified as a tap. *)
Lemma no_hold_after_76_ticks :
  bSave (boot false) = 12
  /\ bAction (ticks 76 (INT0 8 (boot false))) = ACTION_NONE
  /\ timer2_enabled (ticks 76 (INT0 8 (boot false))) = true
  /\ bAction (INT0 12 (ticks 76 (INT0 8 (boot false)))) = ACTION_TAP_LEFT.
Proof. repeat split. Qed.

(** ** C9: tap *)

(** C9, as amended.  From idle, one button pressed and released after n
    overflows of Timer2, n at most 76: for n above 2 the tap action of
    that button is pending after the release, a poll returns it and the
    next poll returns none; for n below 3 the pending action is what it
    was before the press.  The release stops the overflow interrupt. *)
Theorem tap_after_debounce (s : state) (pind rel : Z) (n : nat) :
  bSave s = 12 -> Z.land pind 12 = 8 \/ Z.land pind 12 = 4 ->
  Z.land rel 12 = 12 -> (n <= 76)%nat ->
  timer2_enabled (INT0 rel (ticks n (INT0 pind s))) = false
  /\ ((2 < n)%nat ->
        bAction (INT0 rel (ticks n (INT0 pind s))) = tap_of (Z.land pind 12)
        /\ fst (action_poll (INT0 rel (ticks n (INT0 pind s))))
           = tap_of (Z.land pind 12)
        /\ fst (action_poll (snd (action_poll (INT0 rel (ticks n (INT0 pind s))))))
           = ACTION_NONE)
  /\ ((n < 3)%nat ->
        bAction (INT0 rel (ticks n (INT0 pind s))) = bAction s).
Proof.
  intros Hidle Hb Hrel Hn.
  assert (Hne : Z.land pind 12 <> 12) by lia.
  assert (Hnew : Z.land pind 12 <> bSave s) by (rewrite Hidle; exact Hne).
  destruct (press_then_ticks pind s n Hne Hnew Hn) as (Hs & Hc & Ha & He).
  set (s1 := ticks n (INT0 pind s)) in *.
  destruct (INT0_release rel s1 Hrel) as (_ & _ & Roff & R).
  rewrite Hc, Hs, Ha in R.
  split; [exact Roff|]. split.
  - intros Hgt.
    assert (Htap : bAction (INT0 rel s1) = tap_of (Z.land pind 12)).
    { rewrite R. unfold tap_of.
      destruct (Z.ltb_spec 2 (Z.of_nat n)) as [_ | Hle]; [|lia].
      destruct Hb as [-> | ->]; reflexivity. }
    destruct (action_poll_fields (INT0 rel s1)) as (P1 & P2 & _).
    destruct (action_poll_fields (snd (action_poll (INT0 rel s1)))) as (Q1 & _).
    rewrite Q1, P2, P1, Htap. auto.
  - intros Hlt. rewrite R.
    destruct (Z.ltb_spec 2 (Z.of_nat n)) as [Hgt | _]; [lia | reflexivity].
Qed.

Lemma tap_after_debounce_witness :
  fst (action_poll (INT0 12 (ticks 5 (INT0 8 (boot false))))) = ACTION_TAP_LEFT
  /\ fst (action_poll (snd (action_poll (INT0 12 (ticks 5 (INT0 8 (boot false)))))))
     = ACTION_NONE.
Proof.
  destruct (tap_after_debounce (boot false) 8 12 5 eq_refl (or_introl eq_refl) eq_refl
              ltac:(lia)) as (_ & H & _).
  destruct (H ltac:(lia)) as (_ & H1 & H2).
  split; [exact H1 | exact H2].
Defined.

(** A press of the left button released after 77 overflows, which is
    more than 2: the pending action is the hold, not a tap. *)
Lemma no_tap_after_77_ticks :
  bSave (boot false) = 12
  /\ bAction (INT0 12 (ticks 77 (INT0 8 (boot false)))) = ACTION_HOLD_LEFT
  /\ bAction (INT0 12 (ticks 77 (INT0 8 (boot false)))) <> ACTION_TAP_LEFT.
Proof. repeat split. vm_compute. discriminate. Qed.

(** ** Construction *)

(** The constructor and [begin()] establish well-formedness, in both
    modes; with [wf_fire] and [wf_drawPixel] every state the driver
    reaches is well formed. *)
Lemma wf_boot (double : bool) : wf (boot double) = true.
Proof. destruct double; reflexivity. Qed.

(** Both images start as the all-off pattern. *)
Lemma boot_images_off (double : bool) :
  front_buffer (boot double) = back_buffer (boot double)
  /\ intensity (mem (boot double)) (backBuffer (boot double)) 0 0 = 0.
Proof. destruct double; split; reflexivity. Qed.

(** * Further properties of the driver *)

(** ** Interrupts and the image memory *)

(** X4.  No interrupt handler writes the block or moves the image
    pointers, however many of them run and in whatever order. *)
Theorem interrupts_keep_memory (evs : list interrupt) (s : state) :
  mem (run_irqs evs s) = mem s
  /\ img0 (run_irqs evs s) = img0 s
  /\ img1 (run_irqs evs s) = img1 s.
Proof.
  unfold run_irqs. revert s.
  induction evs as [|e evs IH]; intros s; [auto|].
  cbn [fold_left]. destruct (IH (fire e s)) as (Hm & H0 & H1).
  destruct (fire_mem e s) as (Em & E0 & E1).
  rewrite Hm, H0, H1. auto.
Qed.

(** ** drawPixel as an array update *)

Lemma list_ext_load (m1 m2 : list Z) :
  length m1 = length m2 ->
  (forall a, 0 <= a -> load m1 a = load m2 a) ->
  m1 = m2.
Proof.
  intros Hlen Hload. apply list_eq. intros i.
  replace i with (Z.to_nat (Z.of_nat i)) by lia.
  apply lookup_of_load; [exact Hlen | apply Hload; lia].
Qed.

Lemma upd_upd on on' mask old : upd on mask (upd on' mask old) = upd on mask old.
Proof.
  apply Z.bits_inj'. intros i Hi.
  destruct (Z.lt_ge_cases i 8) as [Hlt | Hge].
  - rewrite !testbit_upd by lia.
    destruct on, on', (Z.testbit old i), (Z.testbit mask i); reflexivity.
  - rewrite !testbit_byte_high; auto using upd_byte.
Qed.

Lemma upd_comm on1 on2 m1 m2 old :
  Z.land m1 m2 = 0 ->
  upd on1 m1 (upd on2 m2 old) = upd on2 m2 (upd on1 m1 old).
Proof.
  intros Hdis. apply Z.bits_inj'. intros i Hi.
  destruct (Z.lt_ge_cases i 8) as [Hlt | Hge].
  - rewrite !testbit_upd by lia.
    assert (Z.testbit m1 i && Z.testbit m2 i = false) as Hb.
    { rewrite <- Z.land_spec, Hdis. apply Z.bits_0. }
    destruct on1, on2, (Z.testbit old i), (Z.testbit m1 i), (Z.testbit m2 i);
      try reflexivity; discriminate Hb.
  - rewrite !testbit_byte_high; auto using upd_byte.
Qed.

Lemma set_mem_twice v w s : set_mem v (set_mem w s) = set_mem v s.
Proof. destruct s; reflexivity. Qed.

Lemma set_mem_backBuffer v s : backBuffer (set_mem v s) = backBuffer s.
Proof. destruct s; reflexivity. Qed.

Lemma drawPixel_as_set_mem x y c s :
  drawPixel x y c s = set_mem (mem (drawPixel x y c s)) s.
Proof.
  unfold drawPixel. destruct (_ && _).
  - rewrite mem_set_mem. reflexivity.
  - destruct s; reflexivity.
Qed.

(** Two states that drawPixel made from the same state are equal when
    their blocks hold the same bytes. *)
Lemma drawn_states_eq (s s1 s2 : state) :
  s1 = set_mem (mem s1) s -> s2 = set_mem (mem s2) s ->
  length (mem s1) = length (mem s2) ->
  (forall a, 0 <= a -> load (mem s1) a = load (mem s2) a) ->
  s1 = s2.
Proof.
  intros E1 E2 Hlen Hload. rewrite E1, E2. f_equal.
  apply list_ext_load; assumption.
Qed.

Lemma in_range_dec x y :
  {0 <= x < 8 /\ 0 <= y < 8} + {x < 0 \/ 7 < x \/ y < 0 \/ 7 < y}.
Proof.
  destruct (Z_le_dec 0 x), (Z_lt_dec x 8), (Z_le_dec 0 y), (Z_lt_dec y 8);
    first [left; lia | right; lia].
Qed.

Lemma drawPixel_ignored x y c s :
  x < 0 \/ 7 < x \/ y < 0 \/ 7 < y -> drawPixel x y c s = s.
Proof.
  intros H. unfold drawPixel.
  destruct ((0 <=? x) && (0 <=? y) && (x <? 8) && (y <? 8)) eqn:B; [|reflexivity].
  rewrite !andb_true_iff in B. lia.
Qed.

(** X1.  A pixel keeps the colour drawn last: drawing (x,y) again
    replaces what an earlier drawPixel of the same pixel stored, and
    leaves the state as if only the second call had been made. *)
Theorem drawPixel_overwrite (x y c c' : Z) (s : state) :
  wf s = true ->
  drawPixel x y c (drawPixel x y c' s) = drawPixel x y c s.
Proof.
  intros Hwf.
  destruct (in_range_dec x y) as [[Hx Hy] | Hout].
  2: { rewrite !drawPixel_ignored by assumption. reflexivity. }
  pose proof (wf_drawPixel x y c' s Hwf) as Hwf'.
  destruct (drawPixel_backBuffer x y c' s) as [Eb _].
  apply (drawn_states_eq s).
  - rewrite (drawPixel_as_set_mem x y c (drawPixel x y c' s)) at 1.
    rewrite (drawPixel_as_set_mem x y c' s) at 2.
    apply set_mem_twice.
  - apply drawPixel_as_set_mem.
  - rewrite !drawPixel_length. reflexivity.
  - intros a Ha.
    destruct (drawPixel_hit_or_miss y s a Hwf Hy)
      as [(k & j & Hk & Hj & ->) | Hmiss].
    + rewrite <- Eb at 1. rewrite drawPixel_load_hit by assumption.
      rewrite Eb. rewrite !drawPixel_load_hit by assumption.
      apply upd_upd.
    + rewrite !drawPixel_load_miss; try assumption; try reflexivity.
      rewrite Eb. exact Hmiss.
Qed.

Lemma drawPixel_overwrite_witness :
  drawPixel 6 1 9 (drawPixel 6 1 250 (boot true)) = drawPixel 6 1 9 (boot true).
Proof. exact (drawPixel_overwrite 6 1 9 250 (boot true) eq_refl). Defined.

Lemma rowBit_disjoint x1 x2 j :
  0 <= x1 < 8 -> 0 <= x2 < 8 -> 0 <= j < 3 -> x1 <> x2 ->
  Z.land (rowBit j x1) (rowBit j x2) = 0.
Proof.
  intros H1 H2 Hj Hne.
  assert (j = 0 \/ j = 1 \/ j = 2) as [-> | [-> | ->]] by lia;
    enum8 H1; enum8 H2; try reflexivity; contradiction.
Qed.

Lemma drawPixel_load_hit_at x y c s B k j :
  wf s = true -> backBuffer s = B ->
  0 <= x < 8 -> 0 <= y < 8 -> 0 <= k < 8 -> 0 <= j < 3 ->
  load (mem (drawPixel x y c s)) (B + y * 3 + 24 * k + j)
  = upd (Z.testbit (u8 c) k) (rowBit j x) (load (mem s) (B + y * 3 + 24 * k + j)).
Proof. intros Hwf <-. apply drawPixel_load_hit, Hwf. Qed.

Lemma drawPixel_load_miss_at x y c s B a :
  wf s = true -> backBuffer s = B ->
  0 <= x < 8 -> 0 <= y < 8 -> 0 <= a ->
  (forall k, 0 <= k < 8 -> a < B + y * 3 + 24 * k \/ B + y * 3 + 24 * k + 2 < a) ->
  load (mem (drawPixel x y c s)) a = load (mem s) a.
Proof. intros Hwf <-. apply drawPixel_load_miss, Hwf. Qed.

(** X2.  Writes to different pixels do not depend on their order. *)
Theorem drawPixel_commute (x1 y1 c1 x2 y2 c2 : Z) (s : state) :
  wf s = true -> (x1, y1) <> (x2, y2) ->
  drawPixel x1 y1 c1 (drawPixel x2 y2 c2 s)
  = drawPixel x2 y2 c2 (drawPixel x1 y1 c1 s).
Proof.
  intros Hwf Hne.
  destruct (in_range_dec x1 y1) as [[Hx1 Hy1] | Hout1].
  2: { rewrite !(drawPixel_ignored x1 y1) by assumption. reflexivity. }
  destruct (in_range_dec x2 y2) as [[Hx2 Hy2] | Hout2].
  2: { rewrite !(drawPixel_ignored x2 y2) by assumption. reflexivity. }
  pose proof (wf_drawPixel x1 y1 c1 s Hwf) as Hwf1.
  pose proof (wf_drawPixel x2 y2 c2 s Hwf) as Hwf2.
  destruct (drawPixel_backBuffer x1 y1 c1 s) as [Eb1 _].
  destruct (drawPixel_backBuffer x2 y2 c2 s) as [Eb2 _].
  destruct (wf_buffers s Hwf) as (Hb & Hlen & _). unfold bufSize in *.
  remember (backBuffer s) as B eqn:EB.
  apply (drawn_states_eq s).
  - rewrite (drawPixel_as_set_mem x1 y1 c1 (drawPixel x2 y2 c2 s)) at 1.
    rewrite (drawPixel_as_set_mem x2 y2 c2 s) at 2. apply set_mem_twice.
  - rewrite (drawPixel_as_set_mem x2 y2 c2 (drawPixel x1 y1 c1 s)) at 1.
    rewrite (drawPixel_as_set_mem x1 y1 c1 s) at 2. apply set_mem_twice.
  - rewrite !drawPixel_length. reflexivity.
  - intros a Ha.
    destruct (drawPixel_hit_or_miss y1 s a Hwf Hy1)
      as [(k1 & j1 & Hk1 & Hj1 & E1) | Hmiss1];
    destruct (drawPixel_hit_or_miss y2 s a Hwf Hy2)
      as [(k2 & j2 & Hk2 & Hj2 & E2) | Hmiss2]; rewrite <- ?EB in *.
    + assert (y1 = y2 /\ k1 = k2 /\ j1 = j2) as (<- & <- & <-) by lia.
      assert (x1 <> x2) as Hxne by congruence.
      subst a.
      rewrite (drawPixel_load_hit_at x1 y1 c1 (drawPixel x2 y1 c2 s) B) by assumption.
      rewrite (drawPixel_load_hit_at x2 y1 c2 s B) by solve [assumption | symmetry; assumption].
      rewrite (drawPixel_load_hit_at x2 y1 c2 (drawPixel x1 y1 c1 s) B) by assumption.
      rewrite (drawPixel_load_hit_at x1 y1 c1 s B) by solve [assumption | symmetry; assumption].
      apply upd_comm, rowBit_disjoint; assumption.
    + subst a.
      rewrite (drawPixel_load_hit_at x1 y1 c1 (drawPixel x2 y2 c2 s) B) by assumption.
      rewrite (drawPixel_load_miss_at x2 y2 c2 s B) by solve [assumption | symmetry; assumption].
      rewrite (drawPixel_load_miss_at x2 y2 c2 (drawPixel x1 y1 c1 s) B) by assumption.
      rewrite (drawPixel_load_hit_at x1 y1 c1 s B) by solve [assumption | symmetry; assumption].
      reflexivity.
    + subst a.
      rewrite (drawPixel_load_miss_at x1 y1 c1 (drawPixel x2 y2 c2 s) B) by assumption.
      rewrite (drawPixel_load_hit_at x2 y2 c2 s B) by solve [assumption | symmetry; assumption].
      rewrite (drawPixel_load_hit_at x2 y2 c2 (drawPixel x1 y1 c1 s) B) by assumption.
      rewrite (drawPixel_load_miss_at x1 y1 c1 s B) by solve [assumption | symmetry; assumption].
      reflexivity.
    + rewrite (drawPixel_load_miss_at x1 y1 c1 (drawPixel x2 y2 c2 s) B) by assumption.
      rewrite (drawPixel_load_miss_at x2 y2 c2 s B) by solve [assumption | symmetry; assumption].
      rewrite (drawPixel_load_miss_at x2 y2 c2 (drawPixel x1 y1 c1 s) B) by assumption.
      rewrite (drawPixel_load_miss_at x1 y1 c1 s B) by solve [assumption | symmetry; assumption].
      reflexivity.
Qed.

Lemma drawPixel_commute_witness :
  drawPixel 0 0 255 (drawPixel 7 0 128 (boot false))
  = drawPixel 7 0 128 (drawPixel 0 0 255 (boot false)).
Proof.
  apply (drawPixel_commute 0 0 255 7 0 128 (boot false) eq_refl). discriminate.
Defined.

(** The back image read as an 8x8 array of bytes: drawPixel stores the
    low byte of the colour at (x,y) and nothing else. *)
Lemma intensity_drawPixel x y c s x' y' :
  wf s = true -> 0 <= x < 8 -> 0 <= y < 8 -> 0 <= x' < 8 -> 0 <= y' < 8 ->
  intensity (mem (drawPixel x y c s)) (backBuffer s) x' y'
  = if (x' =? x) && (y' =? y) then u8 c
    else intensity (mem s) (backBuffer s) x' y'.
Proof.
  intros Hwf Hx Hy Hx' Hy'. unfold intensity.
  destruct ((x' =? x) && (y' =? y)) eqn:E.
  - apply andb_true_iff in E. destruct E as [Ex Ey].
    apply Z.eqb_eq in Ex, Ey. subst x' y'.
    rewrite (bits8_ext _ (Z.testbit (u8 c))).
    + apply bits8_testbit, u8_byte.
    + intros k Hk. apply drawPixel_pixel_bit; assumption.
  - apply bits8_ext. intros k Hk.
    apply drawPixel_other_pixel_bit; try assumption.
    + unfold backBuffer, img. destruct (1 - frontIdx s =? 0); auto.
    + intros Heq. injection Heq as -> ->. rewrite !Z.eqb_refl in E. discriminate.
Qed.

(** X3.  drawPixel keeps the low 8 bits of its 16-bit colour: the pixel
    reads back c mod 256, and colours that agree modulo 256 draw the
    same thing. *)
Theorem drawPixel_colour_mod_256 (x y c : Z) (s : state) :
  wf s = true -> 0 <= x < 8 -> 0 <= y < 8 ->
  intensity (mem (drawPixel x y c s)) (backBuffer (drawPixel x y c s)) x y
  = c mod 256
  /\ drawPixel x y (c mod 256) s = drawPixel x y c s.
Proof.
  intros Hwf Hx Hy. split.
  - destruct (drawPixel_backBuffer x y c s) as [-> _].
    rewrite intensity_drawPixel by assumption.
    rewrite !Z.eqb_refl. reflexivity.
  - unfold drawPixel. destruct (_ && _); [|reflexivity].
    unfold u8. rewrite Z.mod_mod by lia. reflexivity.
Qed.

Lemma drawPixel_colour_mod_256_witness :
  intensity (mem (drawPixel 2 3 0x1234 (boot true)))
    (backBuffer (drawPixel 2 3 0x1234 (boot true))) 2 3 = 0x34.
Proof.
  refine (proj1 (drawPixel_colour_mod_256 2 3 0x1234 (boot true) eq_refl _ _)); lia.
Defined.

(** ** What every reachable state satisfies *)

Lemma lines_off_from_spec (m : list Z) :
  forall j, 0 <= j < 3 ->
  lines_off_from j m = true <->
  (forall i, (i < length m)%nat ->
     Z.land (m !!! i) (select_mask ((j + Z.of_nat i) mod 3))
     = select_mask ((j + Z.of_nat i) mod 3)).
Proof.
  induction m as [|b m IH]; intros j Hj.
  - cbn. split; [intros _ i Hi; lia | reflexivity].
  - cbn [lines_off_from length]. rewrite andb_true_iff, Z.eqb_eq.
    rewrite (IH ((j + 1) mod 3)) by (apply Z.mod_pos_bound; lia).
    split.
    + intros [Hb Hm] [|i] Hi.
      * cbn [lookup_total list_lookup_total]. rewrite Z.add_0_r, Z.mod_small by lia.
        exact Hb.
      * cbn [lookup_total list_lookup_total].
        specialize (Hm i ltac:(lia)).
        rewrite Zplus_mod_idemp_l in Hm.
        replace (j + Z.of_nat (S i)) with (j + 1 + Z.of_nat i) by lia.
        exact Hm.
    + intros H. split.
      * specialize (H 0%nat ltac:(lia)).
        cbn [lookup_total list_lookup_total] in H.
        rewrite Z.add_0_r, Z.mod_small in H by lia. exact H.
      * intros i Hi. specialize (H (S i) ltac:(lia)).
        cbn [lookup_total list_lookup_total] in H.
        rewrite Zplus_mod_idemp_l.
        replace (j + 1 + Z.of_nat i) with (j + Z.of_nat (S i)) by lia.
        exact H.
Qed.

Lemma lines_off_load (m : list Z) :
  lines_off_from 0 m = true <->
  (forall a, 0 <= a < Z.of_nat (length m) ->
     Z.land (load m a) (select_mask (a mod 3)) = select_mask (a mod 3)).
Proof.
  rewrite (lines_off_from_spec m 0) by lia. unfold load. split.
  - intros H a Ha. specialize (H (Z.to_nat a) ltac:(lia)).
    rewrite Z.add_0_l, Z2Nat.id in H by lia. exact H.
  - intros H i Hi. specialize (H (Z.of_nat i) ltac:(lia)).
    rewrite Nat2Z.id in H. rewrite Z.add_0_l. exact H.
Qed.








(** ** The read pointer *)

Lemma TIMER1_ptr s :
  (col s =? 7) && (8 <=? u8 (plane s + 1)) = false ->
  ptr (TIMER1_COMPA s) = if col s =? 7 then ptr s + 24 else ptr s.
Proof. isr_cases s; intros H; rewrite ?H; try reflexivity; discriminate H. Qed.

Lemma TIMER1_frontIdx_keep s :
  frame_end s = false -> 0 <= plane s < 8 -> 0 <= col s < 8 ->
  frontIdx (TIMER1_COMPA s) = frontIdx s.
Proof.
  intros E Hpl Hcl. destruct (TIMER1_no_commit s Hpl Hcl E) as (_ & H & _). exact H.
Qed.

(** After a fire the read pointer is at the plane the cursor is in. *)
Lemma ptr_steady_TIMER1 s :
  wf s = true -> ptr_ok s = true -> ptr_steady (TIMER1_COMPA s) = true.
Proof.
  intros Hwf Hok.
  pose proof (wf_inv s Hwf) as (_ & _ & Hfi & Hpl & Hcl & _).
  unfold ptr_ok, ptr_steady in *. apply Z.eqb_eq.
  destruct (frame_end s) eqn:E.
  - destruct (TIMER1_commit s Hpl Hfi E) as (-> & _ & _ & _ & ->). lia.
  - rewrite TIMER1_plane, !TIMER1_img.
    rewrite (TIMER1_frontIdx_keep s E Hpl Hcl).
    unfold frame_end in E.
    assert (Hu : u8 (plane s + 1) = plane s + 1)
      by (unfold u8; apply Z.mod_small; lia).
    rewrite TIMER1_ptr by (rewrite Hu; lia). rewrite Hu.
    destruct (Z.eqb_spec (col s) 7) as [Ec | Ec].
    + cbn [andb] in E. apply Z.eqb_neq in E.
      destruct (Z.leb_spec 8 (plane s + 1)); lia.
    + lia.
Qed.

Lemma ptr_ok_of_steady s : ptr_steady s = true -> ptr_ok s = true.
Proof. unfold ptr_ok. intros ->. reflexivity. Qed.

Lemma ptr_ok_of_display s s' :
  img0 s' = img0 s -> img1 s' = img1 s -> plane s' = plane s ->
  col s' = col s -> ptr s' = ptr s -> frontIdx s' = frontIdx s ->
  ptr_ok s' = ptr_ok s /\ ptr_steady s' = ptr_steady s.
Proof.
  intros E0 E1 Ep Ec Ept Ef. unfold ptr_ok, ptr_steady, img.
  rewrite E0, E1, Ep, Ec, Ept, Ef. auto.
Qed.

(** ** The invariant *)

Lemma inv_inv s :
  inv s = true <->
  wf s = true /\ ptr_ok s = true /\ lines_off s = true
  /\ 0 <= bCount s <= 76 /\ 0 <= frames s < 65536.
Proof.
  unfold inv. rewrite !andb_true_iff, !Z.leb_le, Z.ltb_lt. tauto.
Qed.

Lemma TIMER1_buttons s :
  bSave (TIMER1_COMPA s) = bSave s /\ bCount (TIMER1_COMPA s) = bCount s
  /\ bAction (TIMER1_COMPA s) = bAction s /\ TIMSK2 (TIMER1_COMPA s) = TIMSK2 s.
Proof. isr_cases s; split_ifs; repeat split. Qed.

Lemma TIMER1_frames_range s :
  wf s = true -> 0 <= frames s < 65536 -> 0 <= frames (TIMER1_COMPA s) < 65536.
Proof.
  intros Hwf Hfr. pose proof (wf_inv s Hwf) as (_ & _ & Hfi & Hpl & Hcl & _).
  destruct (frame_end s) eqn:E.
  - destruct (TIMER1_commit s Hpl Hfi E) as (_ & _ & _ & -> & _).
    unfold u16. apply Z.mod_pos_bound. lia.
  - destruct (TIMER1_no_commit s Hpl Hcl E) as (_ & _ & -> & _). exact Hfr.
Qed.

Lemma button_irq_bCount e s :
  e <> IrqTimer1 -> 0 <= bCount s <= 76 -> 0 <= bCount (fire e s) <= 76.
Proof.
  intros He Hb. destruct e as [|pind|]; [congruence| |]; cbn [fire].
  - unfold INT0. destruct s as [m i0 i1 pl c p fi bs bc ba sf fr pb pc pd oc t1 t2 tk].
    cbn in *. split_ifs; cbn; lia.
  - destruct (timer2_enabled s); [|exact Hb].
    unfold TIMER2_OVF, u8.
    destruct s as [m i0 i1 pl c p fi bs bc ba sf fr pb pc pd oc t1 t2 tk].
    cbn in *. destruct (Z.leb_spec 76 bc).
    + split_ifs; cbn; lia.
    + cbn. rewrite Z.mod_small; lia.
Qed.

Lemma inv_fire e s : inv s = true -> inv (fire e s) = true.
Proof.
  rewrite !inv_inv. intros (Hwf & Hptr & Hoff & Hbc & Hfr).
  split; [apply wf_fire, Hwf|].
  destruct e as [|pind|].
  - cbn [fire]. destruct (TIMER1_buttons s) as (_ & -> & _).
    split; [apply ptr_ok_of_steady, ptr_steady_TIMER1; assumption|].
    split; [unfold lines_off; rewrite TIMER1_mem; exact Hoff|].
    split; [exact Hbc | apply TIMER1_frames_range; assumption].
  - pose proof (button_irq_bCount (IrqInt0 pind) s ltac:(discriminate) Hbc) as Hbc'.
    cbn [fire] in *.
    destruct (INT0_display pind s) as (Em & E0 & E1 & Ep & Ec & Ept & Ef & _ & Efr & _).
    destruct (ptr_ok_of_display s (INT0 pind s) E0 E1 Ep Ec Ept Ef) as [-> _].
    unfold lines_off. rewrite Em, Efr. auto.
  - pose proof (button_irq_bCount IrqTimer2 s ltac:(discriminate) Hbc) as Hbc'.
    cbn [fire] in *. destruct (timer2_enabled s); [|auto].
    destruct (TIMER2_display s) as (Em & E0 & E1 & Ep & Ec & Ept & Ef & _ & Efr & _).
    destruct (ptr_ok_of_display s (TIMER2_OVF s) E0 E1 Ep Ec Ept Ef) as [-> _].
    unfold lines_off. rewrite Em, Efr. auto.
Qed.

Lemma inv_run_irqs evs : forall s, inv s = true -> inv (run_irqs evs s) = true.
Proof.
  unfold run_irqs. induction evs as [|e evs IH]; intros s H; [exact H|].
  cbn [fold_left]. apply IH, inv_fire, H.
Qed.













(** ** What a fire puts on the ports *)

Ltac eval_lines :=
  repeat match goal with
    | |- context [line_port ?n] =>
        let v := eval vm_compute in (line_port n) in change (line_port n) with v
    | |- context [line_bit ?n] =>
        let v := eval vm_compute in (line_bit n) in change (line_bit n) with v
    end.

(** A fire that enters with column [col] loads the three bytes of row
    [col] at the read pointer onto the ports and then clears the select
    bit of that column. *)
Lemma TIMER1_ports s j :
  0 <= col s < 8 -> 0 <= j < 3 ->
  port_val j (TIMER1_COMPA s)
  = if j =? line_port (col s)
    then Z.clearbit (load (mem s) (ptr s + 3 * col s + j)) (line_bit (col s))
    else load (mem s) (ptr s + 3 * col s + j).
Proof.
  intros Hcl Hj.
  destruct s as [m i0 i1 pl c p fi bs bc ba sf fr pb pc pd oc t1 t2 tk].
  cbn [col mem ptr] in *. unfold TIMER1_COMPA, advance_plane.
  assert (j = 0 \/ j = 1 \/ j = 2) as [-> | [-> | ->]] by lia;
    enum8 Hcl; eval_lines; cbn; split_ifs; cbn; rewrite ?Z.add_0_r; reflexivity.
Qed.

Lemma port_pixel_line s x :
  0 <= x < 8 ->
  port_pixel_bit s x = Z.testbit (port_val (port_of x) s) (bit_of x).
Proof.
  intros Hx. unfold port_pixel_bit, port_val.
  destruct (line_range x Hx) as [Hp Hb].
  rewrite !rowBit_line by lia.
  assert (port_of x = 0 \/ port_of x = 1 \/ port_of x = 2) as [E | [E | E]] by lia;
    rewrite E; cbn [Z.eqb Pos.eqb]; rewrite ?Z.land_0_r; cbn [Z.eqb negb orb];
    rewrite land_pow2_test by lia; rewrite ?orb_false_r; reflexivity.
Qed.

Lemma select_line_range n : 0 <= n < 8 -> 0 <= line_port n < 3 /\ 0 <= line_bit n < 8.
Proof.
  intros Hn.
  enum8 Hn; vm_compute; repeat split; first [reflexivity | discriminate].
Qed.

(** A row line and a select line of the same port are different bits. *)
Lemma row_line_not_select x n :
  0 <= x < 8 -> 0 <= n < 8 -> port_of x = line_port n -> bit_of x <> line_bit n.
Proof.
  intros Hx Hn. enum8 Hx; enum8 Hn; vm_compute; intros; discriminate.
Qed.

Lemma select_line_inj n n' :
  0 <= n < 8 -> 0 <= n' < 8 ->
  line_port n = line_port n' -> line_bit n = line_bit n' -> n = n'.
Proof.
  intros Hn Hn'. enum8 Hn; enum8 Hn'; vm_compute; intros; try reflexivity; discriminate.
Qed.

Lemma select_line_in_mask n :
  0 <= n < 8 -> Z.testbit (select_mask (line_port n)) (line_bit n) = true.
Proof. intros Hn. enum8 Hn; reflexivity. Qed.

(** X6.  Each fire of the refresh interrupt puts on the row lines the
    bits of the front image for the column and the plane the cursor is
    at: the drive line of pixel (x, col) carries that pixel's plane bit.
    So what drawPixel encoded is what the matrix is driven with once
    the image is in front. *)
Theorem refresh_shows_front_plane (s : state) (x : Z) :
  wf s = true -> ptr_steady s = true -> 0 <= x < 8 ->
  port_pixel_bit (TIMER1_COMPA s) x
  = pixel_bit (mem s) (img s (frontIdx s)) x (col s) (plane s).
Proof.
  intros Hwf Hptr Hx.
  pose proof (wf_inv s Hwf) as (_ & _ & _ & Hpl & Hcl & _).
  destruct (line_range x Hx) as [Hp Hb].
  unfold ptr_steady in Hptr. apply Z.eqb_eq in Hptr.
  rewrite port_pixel_line, pixel_bit_line by assumption.
  rewrite TIMER1_ports by assumption.
  replace (ptr s + 3 * col s + port_of x)
    with (img s (frontIdx s) + col s * 3 + 24 * plane s + port_of x) by lia.
  destruct (Z.eqb_spec (port_of x) (line_port (col s))) as [E | _]; [|reflexivity].
  apply Z.clearbit_neq. intros Heq.
  apply (row_line_not_select x (col s)); auto.
Qed.

Lemma refresh_shows_front_plane_witness :
  port_pixel_bit (TIMER1_COMPA (TIMER1_COMPA (boot false))) 0
  = pixel_bit (mem (boot false)) 0 0 0 0.
Proof.
  refine (refresh_shows_front_plane (TIMER1_COMPA (boot false)) 0 eq_refl eq_refl _).
  lia.
Defined.

(** X7.  After each fire exactly one column is selected, the one the
    fire entered with: its select line is low and the select lines of
    the 7 other columns are high. *)
Theorem one_column_selected (s : state) (n : Z) :
  wf s = true -> ptr_ok s = true -> lines_off s = true -> 0 <= n < 8 ->
  line_low n (TIMER1_COMPA s) = (n =? col s).
Proof.
  intros Hwf Hptr Hoff Hn.
  pose proof (wf_inv s Hwf) as (_ & _ & _ & Hpl & Hcl & _).
  destruct (wf_buffers s Hwf) as (_ & _ & Hf & Hfl & _). unfold bufSize in *.
  destruct (select_line_range n Hn) as [Hp Hb].
  destruct (select_line_range (col s) Hcl) as [Hp' Hb'].
  unfold line_low. rewrite TIMER1_ports by assumption.
  set (a := ptr s + 3 * col s + line_port n).
  assert (Ha : 0 <= a < Z.of_nat (length (mem s)) /\ a mod 3 = line_port n).
  { unfold ptr_ok, ptr_steady in Hptr. subst a.
    assert (exists q, 0 <= q < 8 /\ ptr s = img s (frontIdx s) + 24 * q)
      as (q & Hq & ->).
    { destruct (Z.eqb_spec (ptr s) (img s (frontIdx s) + 24 * plane s)) as [E | _].
      - exists (plane s). auto.
      - exists 0. split; [lia|]. cbn [orb] in Hptr. lia. }
    split; [lia|].
    destruct Hf as [-> | ->]; Z.div_mod_to_equations; lia. }
  destruct Ha as [Ha Hmod].
  assert (Hset : Z.testbit (load (mem s) a) (line_bit n) = true).
  { unfold lines_off in Hoff. rewrite lines_off_load in Hoff.
    specialize (Hoff a Ha). rewrite Hmod in Hoff.
    assert (Z.testbit (Z.land (load (mem s) a) (select_mask (line_port n))) (line_bit n)
            = true) as H
      by (rewrite Hoff; apply select_line_in_mask, Hn).
    rewrite Z.land_spec in H. apply andb_true_iff in H. apply H. }
  destruct (Z.eqb_spec n (col s)) as [-> | Hne].
  - rewrite Z.eqb_refl, Z.clearbit_eq by lia. reflexivity.
  - destruct (Z.eqb_spec (line_port n) (line_port (col s))) as [Ep | _].
    + rewrite Z.clearbit_neq, Hset; [reflexivity|].
      intros Eb. apply Hne. apply select_line_inj; auto.
    + rewrite Hset. reflexivity.
Qed.

Lemma one_column_selected_witness :
  line_low 4 (TIMER1_COMPA (TIMER1_COMPA (TIMER1_COMPA (boot true)))) = true
  /\ line_low 0 (TIMER1_COMPA (TIMER1_COMPA (TIMER1_COMPA (boot true)))) = false.
Proof.
  split.
  - exact (one_column_selected (TIMER1_COMPA (TIMER1_COMPA (boot true))) 4
             eq_refl eq_refl eq_refl ltac:(lia)).
  - exact (one_column_selected (TIMER1_COMPA (TIMER1_COMPA (boot true))) 0
             eq_refl eq_refl eq_refl ltac:(lia)).
Defined.

(** ** One frame is 64 fires *)

Lemma refresh_S n s : refresh (S n) s = refresh n (TIMER1_COMPA s).
Proof. reflexivity. Qed.

Lemma refresh_add n m s : refresh (n + m) s = refresh m (refresh n s).
Proof. apply repeat_fire_add. Qed.

Lemma wf_refresh n : forall s, wf s = true -> wf (refresh n s) = true.
Proof.
  induction n as [|n IH]; intros s H; [exact H|].
  rewrite refresh_S. apply IH, wf_TIMER1, H.
Qed.

Lemma refresh_cursor n :
  forall s, cursor (refresh n s) = Nat.iter n cursor_step (cursor s).
Proof.
  induction n as [|n IH]; intros s; [reflexivity|].
  rewrite refresh_S, IH, TIMER1_cursor. symmetry. apply Nat.iter_succ_r.
Qed.

Lemma TIMER1_frames s :
  wf s = true ->
  frames (TIMER1_COMPA s) = if frame_end s then u16 (frames s + 1) else frames s.
Proof.
  intros Hwf. pose proof (wf_inv s Hwf) as (_ & _ & Hfi & Hpl & Hcl & _).
  destruct (frame_end s) eqn:E.
  - destruct (TIMER1_commit s Hpl Hfi E) as (_ & _ & _ & H & _). exact H.
  - destruct (TIMER1_no_commit s Hpl Hcl E) as (_ & _ & H & _). exact H.
Qed.

Lemma frames_refresh n :
  forall s, wf s = true -> 0 <= frames s < 65536 ->
  frames (refresh n s) = u16 (frames s + frame_ends n (cursor s)).
Proof.
  induction n as [|n IH]; intros s Hwf Hfr.
  - cbn. rewrite Z.add_0_r. unfold u16. symmetry. apply Z.mod_small, Hfr.
  - rewrite refresh_S, IH by auto using wf_TIMER1, TIMER1_frames_range.
    rewrite TIMER1_frames, TIMER1_cursor by assumption.
    assert (Hfe : frame_ends (S n) (cursor s)
                  = (if frame_end s then 1 else 0)
                    + frame_ends n (cursor_step (cursor s))) by reflexivity.
    rewrite Hfe. generalize (frame_ends n (cursor_step (cursor s))). intros E.
    destruct (frame_end s).
    + unfold u16. rewrite Zplus_mod_idemp_l. f_equal. lia.
    + reflexivity.
Qed.

Lemma cursor_period c pl oc :
  0 <= c < 8 -> 0 <= pl < 8 ->
  fst (Nat.iter 64 cursor_step (c, pl, oc)) = (c, pl)
  /\ frame_ends 64 (c, pl, oc) = 1.
Proof.
  intros Hc Hpl. enum8 Hc; enum8 Hpl; split; vm_compute; reflexivity.
Qed.

Lemma refresh_64 (s : state) :
  wf s = true -> 0 <= frames s < 65536 ->
  col (refresh 64 s) = col s
  /\ plane (refresh 64 s) = plane s
  /\ frames (refresh 64 s) = u16 (frames s + 1).
Proof.
  intros Hwf Hfr.
  pose proof (wf_inv s Hwf) as (_ & _ & _ & Hpl & Hcl & _).
  destruct (cursor_period (col s) (plane s) (OCR1A s) Hcl Hpl) as [Hc He].
  pose proof (refresh_cursor 64 s) as Hcur.
  pose proof (frames_refresh 64 s Hwf Hfr) as Hf.
  unfold cursor in Hcur, Hf.
  revert Hc He Hcur Hf.
  generalize (Nat.iter 64 cursor_step (col s, plane s, OCR1A s)).
  generalize (frame_ends 64 (col s, plane s, OCR1A s)).
  generalize (refresh 64 s).
  intros s' e [[c' p'] o'] Hc He Hcur Hf.
  cbn [fst] in Hc. subst e. rewrite Hf.
  inversion Hcur; subst. inversion Hc; subst. auto.
Qed.

(** X8.  A frame is 64 fires of the refresh interrupt: 64 fires from
    any state bring the cursor back to the column and plane it was at
    and advance the frame counter by exactly one (modulo 2^16); 64 k
    fires advance it by k. *)
Theorem frame_is_64_fires (s : state) (k : nat) :
  wf s = true -> 0 <= frames s < 65536 ->
  col (refresh (k * 64) s) = col s
  /\ plane (refresh (k * 64) s) = plane s
  /\ frames (refresh (k * 64) s) = u16 (frames s + Z.of_nat k).
Proof.
  intros Hwf Hfr. induction k as [|k IH].
  - change (refresh (0 * 64) s) with s. change (Z.of_nat 0) with 0.
    rewrite Z.add_0_r. unfold u16. rewrite Z.mod_small by exact Hfr. auto.
  - replace (S k * 64)%nat with (k * 64 + 64)%nat by lia.
    rewrite (refresh_add (k * 64) 64 s). destruct IH as (Ec & Ep & Ef).
    revert Ec Ep Ef.
    assert (Hwf1 : wf (refresh (k * 64) s) = true) by (apply wf_refresh, Hwf).
    revert Hwf1. generalize (refresh (k * 64) s). intros s1 Hwf1 Ec Ep Ef.
    assert (Hfr1 : 0 <= frames s1 < 65536)
      by (rewrite Ef; unfold u16; apply Z.mod_pos_bound; lia).
    destruct (refresh_64 s1 Hwf1 Hfr1) as (Hc1 & Hc2 & Hf).
    rewrite Hc1, Hc2, Hf, Ec, Ep, Ef.
    split; [reflexivity | split; [reflexivity|]].
    unfold u16. rewrite Zplus_mod_idemp_l. f_equal. lia.
Qed.

Lemma frame_is_64_fires_witness :
  frames (refresh (3 * 64) (boot true)) = 3.
Proof.
  destruct (frame_is_64_fires (boot true) 3 eq_refl
              ltac:(change (frames (boot true)) with 0; lia)) as (_ & _ & H).
  exact H.
Defined.

(** ** The length of a frame *)

Lemma frame_time_cursor n :
  forall s, frame_time n s = frame_time_cur n (cursor s).
Proof.
  induction n as [|n IH]; intros s; [reflexivity|].
  cbn [frame_time frame_time_cur]. rewrite IH.
  change (OCR1A (TIMER1_COMPA s)) with (snd (cursor (TIMER1_COMPA s))).
  rewrite TIMER1_cursor. reflexivity.
Qed.

Lemma frame_time_cur_64 c pl oc :
  0 <= c < 8 -> 0 <= pl < 8 ->
  (c =? 0) || (oc =? Z.shiftl LEDMINTIME pl - OVERHEAD) = true ->
  frame_time_cur 64 (c, pl, oc) = 122400.
Proof.
  intros Hc Hpl Hst.
  enum8 Hc; enum8 Hpl; cbn in Hst; try apply Z.eqb_eq in Hst; subst;
    vm_compute; reflexivity.
Qed.

(** X9.  In steady state a full frame takes 122400 cycles, which is
    LEDMINTIME * 255 * 8 as the comment in the source computes, the
    fires counted with their [OVERHEAD]; and the interval programmed is
    never shorter than 7 nor longer than 7627 timer counts, so the
    16-bit subtraction of [OVERHEAD] never wraps. *)
Theorem frame_takes_122400_cycles (s : state) :
  wf s = true -> steady s = true ->
  frame_time 64 s = LEDMINTIME * 255 * 8
  /\ frame_time 64 s = 122400
  /\ 7 <= OCR1A (TIMER1_COMPA s) <= 7627.
Proof.
  intros Hwf Hst. pose proof (wf_inv s Hwf) as (_ & _ & _ & Hpl & Hcl & _).
  assert (H : frame_time 64 s = 122400).
  { rewrite frame_time_cursor. unfold cursor.
    apply frame_time_cur_64; assumption. }
  split; [rewrite H; reflexivity | split; [exact H|]].
  rewrite TIMER1_OCR1A. unfold steady in Hst.
  destruct (col s =? 0).
  - rewrite interval_of_plane by exact Hpl.
    revert Hpl. generalize (plane s). intros pl Hpl.
    enum8 Hpl; vm_compute; split; discriminate.
  - cbn [orb] in Hst. apply Z.eqb_eq in Hst. rewrite Hst.
    revert Hpl. generalize (plane s). intros pl Hpl.
    enum8 Hpl; vm_compute; split; discriminate.
Qed.

Lemma frame_takes_122400_cycles_witness :
  frame_time 64 (TIMER1_COMPA (boot false)) = 122400.
Proof.
  exact (proj1 (proj2 (frame_takes_122400_cycles (TIMER1_COMPA (boot false))
                         eq_refl eq_refl))).
Defined.

(** ** swapBuffers without copy *)

(** X10.  swapBuffers(false) exchanges the two images and leaves the
    block as it is: the image that was in the back is in front, the one
    that was in front is in the back, and no byte has changed.  It
    returns once the interrupts that arrive contain the fires left in
    the frame (64 always suffice).  A second call brings the first
    image back in front. *)
Theorem swapBuffers_exchange (s : state) :
  wf s = true ->
  (forall evs, 64 <= count_timer1 evs ->
     exists s', swapBuffers false evs s = Some s')
  /\ (forall evs s', swapBuffers false evs s = Some s' ->
        mem s' = mem s
        /\ frontIdx s' = 1 - frontIdx s
        /\ swapFlag s' = false
        /\ front_buffer s' = back_buffer s
        /\ back_buffer s' = front_buffer s
        /\ forall evs' s'', swapBuffers false evs' s' = Some s'' ->
             frontIdx s'' = frontIdx s /\ front_buffer s'' = front_buffer s).
Proof.
  intros Hwf.
  assert (Hone : forall t evs t', wf t = true ->
            swapBuffers false evs t = Some t' ->
            wf t' = true /\ mem t' = mem t /\ img0 t' = img0 t
            /\ img1 t' = img1 t /\ frontIdx t' = 1 - frontIdx t
            /\ swapFlag t' = false).
  { intros t evs t' Hwt Hsw. unfold swapBuffers in Hsw.
    destruct (swap_wait evs (set_swapFlag true t)) as [t1|] eqn:Hw; [|discriminate].
    injection Hsw as <-.
    destruct (set_swapFlag_fields true t) as (Em & E0 & E1 & Ep & Ec & Ef & Es).
    assert (Hwt1 : wf (set_swapFlag true t) = true)
      by (apply (wf_of_display t); assumption).
    destruct (swap_wait_result evs _ _ Hwt1 Hw) as (H1 & H2 & H3 & H4 & H5 & H6).
    rewrite Es, Ef in H6. rewrite H3, H4, H5, Em, E0, E1. auto 10. }
  split.
  - intros evs Hcount. unfold swapBuffers.
    destruct (set_swapFlag_fields true s) as (Em & E0 & E1 & Ep & Ec & Ef & Es).
    assert (Hwf1 : wf (set_swapFlag true s) = true)
      by (apply (wf_of_display s); assumption).
    destruct (swap_wait_returns evs (set_swapFlag true s) Hwf1) as [s' Hs'].
    { pose proof (fires_left_range _ Hwf1). lia. }
    rewrite Hs'. eauto.
  - intros evs s' Hsw.
    destruct (Hone s evs s' Hwf Hsw) as (Hwf' & Em & E0 & E1 & Ef & Es).
    pose proof (wf_inv s Hwf) as (_ & _ & Hfi & _).
    assert (Himg : forall i, img s' i = img s i)
      by (intros i; unfold img; rewrite E0, E1; reflexivity).
    assert (Hback : 1 - frontIdx s' = frontIdx s) by lia.
    split; [exact Em|]. split; [exact Ef|]. split; [exact Es|].
    split; [|split].
    + unfold front_buffer, back_buffer. rewrite Em, Himg, Ef. reflexivity.
    + unfold front_buffer, back_buffer. rewrite Em, Himg, Hback. reflexivity.
    + intros evs' s'' Hsw'.
      destruct (Hone s' evs' s'' Hwf' Hsw') as (_ & Em' & E0' & E1' & Ef' & _).
      assert (Hfi' : frontIdx s'' = frontIdx s) by lia.
      split; [exact Hfi'|].
      unfold front_buffer. rewrite Em', Em, Hfi'. f_equal.
      unfold img. rewrite E0', E1', E0, E1. reflexivity.
Qed.

Lemma swapBuffers_exchange_witness :
  exists s', swapBuffers false (repeat IrqTimer1 64) (boot true) = Some s'.
Proof.
  apply (swapBuffers_exchange (boot true) (wf_boot true)).
  vm_compute. discriminate.
Defined.

(** ** delay *)



Lemma count_timer1_nonneg evs : 0 <= count_timer1 evs.
Proof. unfold count_timer1. lia. Qed.







(** ** Where button actions come from *)

Lemma TIMER2_action s :
  bAction (TIMER2_OVF s) =
    if 76 <=? bCount s then
      if bSave s =? 8 then ACTION_HOLD_LEFT
      else if bSave s =? 4 then ACTION_HOLD_RIGHT
      else if bSave s =? 0 then ACTION_HOLD_BOTH
      else bAction s
    else bAction s.
Proof.
  unfold TIMER2_OVF. change (_BV PORTD3) with 8. change (_BV PORTD2) with 4.
  destruct s as [m i0 i1 pl c p fi bs bc ba sf fr pb pc pd oc t1 t2 tk]; cbn.
  destruct (76 <=? bc); [|reflexivity].
  destruct (bs =? 8); [reflexivity|].
  destruct (bs =? 4); [reflexivity|].
  destruct (bs =? 0); reflexivity.
Qed.

(** X12.  An interrupt changes the pending action in two ways only: a
    release edge more than 2 overflows after the last press of a single
    button stores the tap of that button, and an enabled overflow with
    the counter at 76 stores the hold of the buttons down.  The refresh
    interrupt, press edges, early releases and releases of a chord never
    produce an action. *)
Theorem action_sources (e : interrupt) (s : state) :
  bAction (fire e s) <> bAction s ->
  (exists pind, e = IrqInt0 pind /\ Z.land pind 12 = 12 /\ 2 < bCount s
     /\ (bSave s = 8 \/ bSave s = 4)
     /\ bAction (fire e s) = tap_of (bSave s))
  \/ (e = IrqTimer2 /\ timer2_enabled s = true /\ 76 <= bCount s
      /\ pressed (bSave s) = true
      /\ bAction (fire e s) = hold_of (bSave s)).
Proof.
  intros Hne. destruct e as [|pind|]; cbn [fire] in *.
  - destruct (TIMER1_buttons s) as (_ & _ & Ha & _). congruence.
  - left. exists pind. split; [reflexivity|].
    destruct (Z.eq_dec (Z.land pind 12) 12) as [Hrel | Hpress].
    + destruct (INT0_release pind s Hrel) as (_ & _ & _ & Ha).
      rewrite Ha in *. unfold tap_of.
      destruct (2 <? bCount s) eqn:Hc; [|congruence].
      apply Z.ltb_lt in Hc.
      destruct (bSave s =? 8) eqn:H8.
      { apply Z.eqb_eq in H8. auto. }
      destruct (bSave s =? 4) eqn:H4; [|congruence].
      apply Z.eqb_eq in H4. auto.
    + exfalso. apply Hne.
      destruct (Z.eq_dec (Z.land pind 12) (bSave s)) as [Hsame | Hnew].
      * unfold INT0. change (Z.lor (_BV PORTD3) (_BV PORTD2)) with 12.
        cbv zeta. apply Z.eqb_neq in Hpress. rewrite Hpress.
        apply Z.eqb_eq in Hsame. rewrite Hsame. reflexivity.
      * destruct (INT0_press pind s Hpress Hnew) as (_ & _ & Ha & _). exact Ha.
  - right. split; [reflexivity|].
    destruct (timer2_enabled s) eqn:Hen; [|congruence].
    rewrite TIMER2_action in *. unfold hold_of, pressed.
    destruct (76 <=? bCount s) eqn:Hc; [|congruence].
    apply Z.leb_le in Hc.
    destruct (bSave s =? 8) eqn:H8.
    { rewrite orb_true_r. auto. }
    destruct (bSave s =? 4) eqn:H4.
    { rewrite orb_true_r. auto. }
    destruct (bSave s =? 0) eqn:H0; [auto | congruence].
Qed.

Lemma action_sources_witness :
  bAction (fire IrqTimer2 (ticks 76 (INT0 8 (boot false)))) = ACTION_HOLD_LEFT.
Proof.
  destruct (action_sources IrqTimer2 (ticks 76 (INT0 8 (boot false))))
    as [(pind & He & _) | (_ & _ & _ & _ & Ha)].
  - vm_compute. discriminate.
  - discriminate He.
  - exact Ha.
Defined.

(** ** Presses that change while a button is down *)

(** X13.  The hold is timed from the last change of the buttons down,
    not from the first press: when the mask changes from one pressed
    combination to another within the hold time, the counter starts
    again, no action is stored for another 76 overflows however long
    the first combination was held, and the 77th overflow stores the
    hold of the second combination. *)
Theorem hold_timed_from_last_change (s : state) (p1 p2 : Z) (n m : nat) :
  bSave s = 12 ->
  pressed (Z.land p1 12) = true -> pressed (Z.land p2 12) = true ->
  Z.land p2 12 <> Z.land p1 12 -> (n <= 76)%nat ->
  ((m <= 76)%nat ->
     bAction (ticks m (INT0 p2 (ticks n (INT0 p1 s)))) = bAction s
     /\ bCount (ticks m (INT0 p2 (ticks n (INT0 p1 s)))) = Z.of_nat m)
  /\ ((77 <= m)%nat ->
        bAction (ticks m (INT0 p2 (ticks n (INT0 p1 s)))) = hold_of (Z.land p2 12)).
Proof.
  intros Hs H1 H2 Hne Hn.
  assert (Hp : forall b, pressed b = true -> b <> 12).
  { intros b Hb ->. discriminate Hb. }
  destruct (press_then_ticks p1 s n) as (Hb & _ & Ha & _);
    [auto | rewrite Hs; auto | exact Hn |].
  set (t := ticks n (INT0 p1 s)) in *.
  assert (Hnew : Z.land p2 12 <> bSave t) by (rewrite Hb; exact Hne).
  split.
  - intros Hm.
    destruct (press_then_ticks p2 t m) as (_ & Hc & Ha' & _); [auto | exact Hnew | exact Hm |].
    rewrite Ha', Ha. auto.
  - intros Hm.
    destruct (press_then_hold p2 t m H2 Hnew Hm) as (Ha' & _). exact Ha'.
Qed.

Lemma hold_timed_from_last_change_witness :
  bAction (ticks 77 (INT0 0 (ticks 50 (INT0 8 (boot false))))) = ACTION_HOLD_BOTH.
Proof.
  apply (hold_timed_from_last_change (boot false) 8 0 50 77);
    first [reflexivity | discriminate | lia].
Defined.

(** X14.  Both buttons down.  Released together, a chord never stores
    a tap, whatever its length.  Released one after the other, the
    first release is taken as a new press of the button still down: if
    that button goes up more than 2 and at most 76 overflows later its
    tap is stored, also when the chord had been held long enough to
    store HOLD_BOTH, which the tap then replaces unless it was read in
    between. *)
Theorem chord_release (s : state) (p one rel : Z) (n k : nat) :
  bSave s = 12 -> Z.land p 12 = 0 ->
  Z.land one 12 = 8 \/ Z.land one 12 = 4 ->
  Z.land rel 12 = 12 -> (3 <= k <= 76)%nat ->
  ((n <= 76)%nat -> bAction (INT0 rel (ticks n (INT0 p s))) = bAction s)
  /\ ((77 <= n)%nat -> bAction (ticks n (INT0 p s)) = ACTION_HOLD_BOTH)
  /\ bAction (INT0 rel (ticks k (INT0 one (ticks n (INT0 p s)))))
     = tap_of (Z.land one 12).
Proof.
  intros Hs Hp Hone Hrel Hk.
  assert (Hp12 : Z.land p 12 <> 12) by lia.
  assert (Hpnew : Z.land p 12 <> bSave s) by lia.
  assert (Hpr : pressed (Z.land p 12) = true) by (rewrite Hp; reflexivity).
  assert (Hb : bSave (ticks n (INT0 p s)) = 0).
  { destruct (le_lt_dec n 76) as [Hn | Hn].
    - destruct (press_then_ticks p s n Hp12 Hpnew Hn) as (Hb & _). lia.
    - destruct (press_then_hold p s n Hpr Hpnew) as (_ & _ & Hb & _); [lia | exact Hb]. }
  split; [|split].
  - intros Hn.
    destruct (press_then_ticks p s n Hp12 Hpnew Hn) as (Hb' & Hc & Ha & _).
    destruct (INT0_release rel (ticks n (INT0 p s)) Hrel) as (_ & _ & _ & Har).
    rewrite Har, Hb', Hp, Ha.
    destruct (2 <? bCount (ticks n (INT0 p s))); reflexivity.
  - intros Hn.
    destruct (press_then_hold p s n Hpr Hpnew Hn) as (Ha & _).
    rewrite Ha, Hp. reflexivity.
  - set (t := ticks n (INT0 p s)) in *.
    destruct (press_then_ticks one t k) as (Hb1 & Hc1 & _); [lia | lia | lia |].
    destruct (INT0_release rel (ticks k (INT0 one t)) Hrel) as (_ & _ & _ & Har).
    rewrite Har, Hb1, Hc1.
    replace (2 <? Z.of_nat k) with true by (symmetry; apply Z.ltb_lt; lia).
    unfold tap_of. destruct Hone as [-> | ->]; reflexivity.
Qed.

Lemma chord_release_witness :
  bAction (INT0 12 (ticks 5 (INT0 8 (ticks 80 (INT0 0 (boot false))))))
  = ACTION_TAP_LEFT.
Proof.
  apply (chord_release (boot false) 0 8 12 80 5);
    first [reflexivity | lia | left; reflexivity].
Defined.

(** ** Before the first pixel is drawn *)
















(** * The binary watch face *)

Lemma i16_small z : 0 <= z < 32768 -> i16 z = z.
Proof.
  intros H. unfold i16, u16. rewrite Z.mod_small by lia.
  destruct (Z.ltb_spec z 32768); [reflexivity | lia].
Qed.

Lemma shiftr1_bound mask n :
  0 <= mask < 2 ^ Z.of_nat (S n) -> 0 <= Z.shiftr mask 1 < 2 ^ Z.of_nat n.
Proof.
  intros H. rewrite Z.shiftr_div_pow2 by lia. change (2 ^ 1) with 2.
  rewrite Nat2Z.inj_succ, Z.pow_succ_r in H by lia.
  split; [apply Z.div_pos; lia | apply Z.div_lt_upper_bound; lia].
Qed.

(** What a pass of the loop of display_nobcd leaves in the back image:
    pixel (x, row) for x from [col] on shows the bit of the value under
    the mask shifted x - col times, as long as that mask is not 0. *)
Lemma nobcd_loop_intensity row value on off fuel :
  forall mask col s,
  wf s = true -> 0 <= mask < 2 ^ Z.of_nat fuel ->
  0 <= col -> col + Z.of_nat fuel <= 255 -> 0 <= row < 8 ->
  wf (nobcd_loop fuel mask col row value on off s) = true
  /\ backBuffer (nobcd_loop fuel mask col row value on off s) = backBuffer s
  /\ forall x y, 0 <= x < 8 -> 0 <= y < 8 ->
       intensity (mem (nobcd_loop fuel mask col row value on off s))
         (backBuffer s) x y
       = if (y =? row) && (col <=? x) && negb (Z.shiftr mask (x - col) =? 0)
         then u8 (if Z.land value (Z.shiftr mask (x - col)) =? 0 then off else on)
         else intensity (mem s) (backBuffer s) x y.
Proof.
  induction fuel as [|fuel IH]; intros mask col s Hwf Hmask Hcol Hfit Hrow.
  - cbn [nobcd_loop]. split; [exact Hwf|]. split; [reflexivity|].
    intros x y Hx Hy. change (2 ^ Z.of_nat 0) with 1 in Hmask.
    replace mask with 0 by lia. rewrite Z.shiftr_0_l.
    rewrite Z.eqb_refl, andb_false_r. reflexivity.
  - cbn [nobcd_loop]. destruct (Z.eqb_spec mask 0) as [-> | Hnz].
    { split; [exact Hwf|]. split; [reflexivity|].
      intros x y Hx Hy. rewrite Z.shiftr_0_l, Z.eqb_refl, andb_false_r.
      reflexivity. }
    rewrite i16_small by lia.
    set (c := if Z.land value mask =? 0 then off else on).
    set (s1 := drawPixel col row c s).
    assert (Hwf1 : wf s1 = true) by (apply wf_drawPixel, Hwf).
    assert (Hbb : backBuffer s1 = backBuffer s) by apply drawPixel_backBuffer.
    rewrite u8_of_byte by (unfold byte; lia).
    destruct (IH (Z.shiftr mask 1) (col + 1) s1 Hwf1) as (IH1 & IH2 & IH3);
      [apply shiftr1_bound, Hmask | lia | lia | exact Hrow |].
    split; [exact IH1|]. split; [rewrite IH2; exact Hbb|].
    intros x y Hx Hy. rewrite <- Hbb, IH3, Hbb by assumption.
    assert (Hs1 : intensity (mem s1) (backBuffer s) x y
                  = if (x =? col) && (y =? row) then u8 c
                    else intensity (mem s) (backBuffer s) x y).
    { destruct (Z.lt_ge_cases col 8) as [Hin | Hout].
      - apply intensity_drawPixel; auto; lia.
      - unfold s1. rewrite drawPixel_ignored by lia.
        replace (x =? col) with false by (symmetry; apply Z.eqb_neq; lia).
        reflexivity. }
    rewrite Hs1.
    destruct (Z.eqb_spec y row) as [-> | Hy'];
      [|rewrite andb_false_r; reflexivity].
    rewrite andb_true_r. cbn [andb].
    destruct (Z.lt_trichotomy x col) as [Hlt | [-> | Hgt]].
    + replace (col + 1 <=? x) with false by (symmetry; apply Z.leb_gt; lia).
      replace (col <=? x) with false by (symmetry; apply Z.leb_gt; lia).
      replace (x =? col) with false by (symmetry; apply Z.eqb_neq; lia).
      reflexivity.
    + replace (col + 1 <=? col) with false by (symmetry; apply Z.leb_gt; lia).
      rewrite Z.leb_refl, Z.eqb_refl, Z.sub_diag, Z.shiftr_0_r.
      replace (mask =? 0) with false by (symmetry; apply Z.eqb_neq; exact Hnz).
      reflexivity.
    + replace (col + 1 <=? x) with true by (symmetry; apply Z.leb_le; lia).
      replace (col <=? x) with true by (symmetry; apply Z.leb_le; lia).
      replace (x =? col) with false by (symmetry; apply Z.eqb_neq; lia).
      rewrite Z.shiftr_shiftr by lia.
      replace (1 + (x - (col + 1))) with (x - col) by lia.
      reflexivity.
Qed.

(** The mask of a most significant bit, shifted. *)
Lemma shiftr_msb w i :
  1 <= w -> 0 <= i ->
  Z.shiftr (2 ^ (w - 1)) i = if i <? w then 2 ^ (w - 1 - i) else 0.
Proof.
  intros Hw Hi. rewrite Z.shiftr_div_pow2 by lia.
  destruct (Z.ltb_spec i w) as [Hlt | Hge].
  - rewrite <- Z.pow_sub_r by lia. reflexivity.
  - apply Z.div_small. split; [apply Z.pow_nonneg; lia|].
    apply Z.pow_lt_mono_r; lia.
Qed.

Lemma pow2_msb_bound w : 1 <= w <= 8 -> 0 <= 2 ^ (w - 1) < 256.
Proof.
  intros Hw. split; [apply Z.pow_nonneg; lia|].
  change 256 with (2 ^ 8). apply Z.pow_lt_mono_r; lia.
Qed.

Lemma display_nobcd_intensity (s : state) (w c0 r value on off : Z) :
  wf s = true -> 1 <= w <= 8 -> 0 <= c0 -> c0 + w <= 8 -> 0 <= r < 8 ->
  byte on -> byte off ->
  wf (display_nobcd (mkDisplay r (mkValue c0 (2 ^ (w - 1)))) value on off s) = true
  /\ backBuffer (display_nobcd (mkDisplay r (mkValue c0 (2 ^ (w - 1)))) value on off s)
     = backBuffer s
  /\ forall x y, 0 <= x < 8 -> 0 <= y < 8 ->
       intensity
         (mem (display_nobcd (mkDisplay r (mkValue c0 (2 ^ (w - 1)))) value on off s))
         (backBuffer s) x y
       = if (y =? r) && (c0 <=? x) && (x <? c0 + w)
         then (if Z.testbit value (c0 + w - 1 - x) then on else off)
         else intensity (mem s) (backBuffer s) x y.
Proof.
  intros Hwf Hw Hc0 Hfit Hr Hon Hoff.
  pose proof (pow2_msb_bound w Hw) as Hm.
  unfold display_nobcd. cbn [Display_value Display_row Value_mask Value_col].
  rewrite !u8_of_byte by (unfold byte; lia).
  destruct (nobcd_loop_intensity r value on off 8 (2 ^ (w - 1)) c0 s Hwf)
    as (H1 & H2 & H3); [exact Hm | lia | lia | exact Hr |].
  split; [exact H1|]. split; [exact H2|].
  intros x y Hx Hy. rewrite H3 by assumption.
  destruct (y =? r); [|reflexivity]. cbn [andb].
  destruct (Z.leb_spec c0 x) as [Hle | Hgt]; [|reflexivity]. cbn [andb].
  rewrite shiftr_msb by lia.
  replace (x - c0 <? w) with (x <? c0 + w)
    by (destruct (Z.ltb_spec x (c0 + w)), (Z.ltb_spec (x - c0) w); first [reflexivity | lia]).
  destruct (Z.ltb_spec x (c0 + w)) as [Hlt | Hge].
  - replace (2 ^ (w - 1 - (x - c0)) =? 0) with false
      by (symmetry; apply Z.eqb_neq, Z.pow_nonzero; lia).
    cbn [negb].
    replace (w - 1 - (x - c0)) with (c0 + w - 1 - x) by lia.
    pose proof (land_pow2_test value (c0 + w - 1 - x) ltac:(lia)) as Hb.
    destruct (Z.testbit value (c0 + w - 1 - x));
      destruct (Z.land value (2 ^ (c0 + w - 1 - x)) =? 0); try discriminate Hb;
      apply u8_of_byte; assumption.
  - reflexivity.
Qed.

(** X16.  display_nobcd writes a value in binary along its row, most
    significant bit first: for a Value whose mask is bit w - 1 and whose
    w columns fit on the row, the pixel in column c0 + i of the row is
    [on] when bit w - 1 - i of the value is set and [off] when it is
    clear, bits of the value from w up are not shown, and every other
    pixel of the back image keeps its intensity. *)
Theorem display_nobcd_shows_binary (s : state) (w c0 r value on off : Z) :
  wf s = true -> 1 <= w <= 8 -> 0 <= c0 -> c0 + w <= 8 -> 0 <= r < 8 ->
  byte on -> byte off ->
  forall x y, 0 <= x < 8 -> 0 <= y < 8 ->
    intensity
      (mem (display_nobcd (mkDisplay r (mkValue c0 (2 ^ (w - 1)))) value on off s))
      (backBuffer (display_nobcd (mkDisplay r (mkValue c0 (2 ^ (w - 1)))) value on off s))
      x y
    = if (y =? r) && (c0 <=? x) && (x <? c0 + w)
      then (if Z.testbit value (c0 + w - 1 - x) then on else off)
      else intensity (mem s) (backBuffer s) x y.
Proof.
  intros Hwf Hw Hc0 Hfit Hr Hon Hoff x y Hx Hy.
  destruct (display_nobcd_intensity s w c0 r value on off) as (_ & H2 & H3);
    try assumption.
  rewrite H2. apply H3; assumption.
Qed.

Lemma display_nobcd_shows_binary_witness :
  intensity
    (mem (display_nobcd (mkDisplay 2 (mkValue 0 (2 ^ (3 - 1)))) 5 255 32 (boot true)))
    (backBuffer (display_nobcd (mkDisplay 2 (mkValue 0 (2 ^ (3 - 1)))) 5 255 32 (boot true)))
    1 2
  = 32.
Proof.
  apply (display_nobcd_shows_binary (boot true) 3 0 2 5 255 32 (wf_boot true));
    unfold byte; lia.
Defined.

(** ** Packed decimal *)

Lemma drawPixel_then x y c s :
  wf s = true -> 0 <= x < 8 -> 0 <= y < 8 ->
  wf (drawPixel x y c s) = true
  /\ backBuffer (drawPixel x y c s) = backBuffer s
  /\ forall x' y', 0 <= x' < 8 -> 0 <= y' < 8 ->
       intensity (mem (drawPixel x y c s)) (backBuffer s) x' y'
       = if (x' =? x) && (y' =? y) then u8 c
         else intensity (mem s) (backBuffer s) x' y'.
Proof.
  intros Hwf Hx Hy. split; [apply wf_drawPixel, Hwf|].
  split; [apply drawPixel_backBuffer|].
  intros x' y' Hx' Hy'. apply intensity_drawPixel; assumption.
Qed.

Lemma bcd_loop_unfold row value digit on off s :
  bcd_loop 8 4 5 row value digit on off s
  = drawPixel 2 (i16 row) (if Z.land digit 1 =? 0 then off else on)
      (drawPixel 7 (i16 row) (if Z.land value 1 =? 0 then off else on)
         (drawPixel 1 (i16 row) (if Z.land digit 2 =? 0 then off else on)
            (drawPixel 6 (i16 row) (if Z.land value 2 =? 0 then off else on)
               (drawPixel 0 (i16 row) (if Z.land digit 4 =? 0 then off else on)
                  (drawPixel 5 (i16 row) (if Z.land value 4 =? 0 then off else on)
                     s))))).
Proof. reflexivity. Qed.

Lemma pick_byte (b : bool) on off : byte on -> byte off -> byte (if b then off else on).
Proof. destruct b; auto. Qed.

Lemma land_bit_test a k :
  0 <= k -> (Z.land a (2 ^ k) =? 0) = negb (Z.testbit a k).
Proof.
  intros Hk. rewrite <- (land_pow2_test a k Hk).
  destruct (Z.land a (2 ^ k) =? 0); reflexivity.
Qed.

(** X17.  display_value in BCD mode shows the ones digit of the value
    in columns 4 to 7 and the low three bits of the tens digit in
    columns 0 to 2, most significant bit first; column 3 and the other
    rows are not touched, and the row and column of the Value play no
    part.  The tens digit has no fourth column: from 80 on it is shown
    modulo 8. *)
Theorem display_value_bcd (s : state) (dsp : Display) (value on off : Z) :
  wf s = true -> 0 <= Display_row dsp < 8 ->
  byte value -> byte on -> byte off ->
  forall x y, 0 <= x < 8 -> 0 <= y < 8 ->
    intensity (mem (display_value true dsp value on off s))
      (backBuffer (display_value true dsp value on off s)) x y
    = if (y =? Display_row dsp) && negb (x =? 3)
      then if x <? 3
           then (if Z.testbit ((value / 10) mod 8) (2 - x) then on else off)
           else (if Z.testbit (value mod 10) (7 - x) then on else off)
      else intensity (mem s) (backBuffer s) x y.
Proof.
  intros Hwf Hr Hv Hon Hoff x y Hx Hy.
  unfold display_value. cbn [negb]. rewrite bcd_loop_unfold.
  rewrite i16_small by lia.
  set (r := Display_row dsp) in *.
  set (d := value / 10).
  assert (Hones : u8 (value - d * 10) = value mod 10).
  { replace (value - d * 10) with (value mod 10)
      by (unfold d; rewrite (Z.mod_eq value 10) by lia; lia).
    apply u8_of_byte. unfold byte.
    pose proof (Z.mod_pos_bound value 10). lia. }
  rewrite Hones. set (o := value mod 10).
  repeat match goal with
    | |- context [drawPixel ?a r ?c ?t] =>
        lazymatch t with
        | context [drawPixel] => fail
        | _ =>
            let H1 := fresh "Hw" in
            let H2 := fresh "Hb" in
            let H3 := fresh "Hi" in
            destruct (drawPixel_then a r c t) as (H1 & H2 & H3);
              [assumption | lia | exact Hr |];
            rewrite <- ?H2 in *;
            generalize dependent (drawPixel a r c t); intros
        end
    end.
  repeat match goal with
    | H : forall x' y', _ -> _ -> intensity _ _ _ _ = _ |- _ =>
        rewrite H by assumption; clear H
    end.
  rewrite !u8_of_byte by (apply pick_byte; assumption).
  destruct (Z.eqb_spec y r) as [-> | Hy'].
  2: { enum8 Hx; reflexivity. }
  assert (Hd : forall k, 0 <= k < 3 -> Z.testbit (d mod 8) k = Z.testbit d k).
  { intros k Hk. change 8 with (2 ^ 3). apply Z.mod_pow2_bits_low. lia. }
  pose proof (land_bit_test d 0 ltac:(lia)) as D0.
  pose proof (land_bit_test d 1 ltac:(lia)) as D1.
  pose proof (land_bit_test d 2 ltac:(lia)) as D2.
  pose proof (land_bit_test o 0 ltac:(lia)) as O0.
  pose proof (land_bit_test o 1 ltac:(lia)) as O1.
  pose proof (land_bit_test o 2 ltac:(lia)) as O2.
  pose proof (land_bit_test o 3 ltac:(lia)) as O3.
  change (2 ^ 0) with 1 in *. change (2 ^ 1) with 2 in *.
  change (2 ^ 2) with 4 in *. change (2 ^ 3) with 8 in O3.
  rewrite D0, D1, D2, O0, O1, O2, O3.
  enum8 Hx; cbn [Z.eqb Z.ltb Z.compare Pos.compare Pos.compare_cont Pos.eqb
                 andb negb];
    repeat match goal with
    | |- context [2 - ?b] =>
        let v := eval vm_compute in (2 - b) in change (2 - b) with v
    | |- context [7 - ?b] =>
        let v := eval vm_compute in (7 - b) in change (7 - b) with v
    end;
    rewrite ?Hd by lia;
    repeat match goal with
    | |- context [Z.testbit ?a ?k] => destruct (Z.testbit a k)
    end; reflexivity.
Qed.

Lemma display_value_bcd_witness :
  intensity (mem (display_value true (mkDisplay 1 (mkValue 1 0x40)) 99 255 32 (boot true)))
    (backBuffer (display_value true (mkDisplay 1 (mkValue 1 0x40)) 99 255 32 (boot true)))
    0 1
  = 32.
Proof.
  apply (display_value_bcd (boot true) (mkDisplay 1 (mkValue 1 0x40)) 99 255 32
           (wf_boot true));
    unfold byte; cbn [Display_row]; lia.
Defined.


(** ** Hours *)

Lemma fetch_hour12_range hour :
  0 <= hour < 24 ->
  1 <= fetch_hour12 hour <= 12 /\ (fetch_hour12 hour - hour) mod 12 = 0.
Proof.
  intros H. unfold fetch_hour12, u8.
  destruct (Z.ltb_spec 12 hour) as [Hgt | Hle].
  - rewrite Z.mod_small by lia. split; [lia|].
    replace (hour - 12 - hour) with (-1 * 12) by lia. apply Z.mod_mul. lia.
  - destruct (Z.eqb_spec hour 0) as [-> | Hnz].
    + split; [lia | reflexivity].
    + split; [lia|]. rewrite Z.sub_diag. reflexivity.
Qed.

(** X18.  The hour row.  fetch_hour12 maps the hours 0 to 23 onto 1 to
    12, congruent modulo 12.  In 12-hour mode display_hour shows that
    number in columns 4 to 7 of the row, all four bits of it, whether
    its static Value is still to be set up or was set up by an earlier
    call, and leaves column 3 alone; in 24-hour mode it shows the hour
    in columns 3 to 7. *)
Theorem display_hour_shows_hour
    (s : state) (st : option Value) (hour r on off : Z) :
  wf s = true -> 0 <= hour < 24 -> 0 <= r < 8 -> byte on -> byte off ->
  st = None \/ st = Some (mkValue 4 8) ->
  (1 <= fetch_hour12 hour <= 12 /\ (fetch_hour12 hour - hour) mod 12 = 0)
  /\ fst (display_hour false st (mkDisplay r hour_value)
            (fetch_hour false hour) on off s) = Some (mkValue 4 8)
  /\ (forall x y, 0 <= x < 8 -> 0 <= y < 8 ->
        intensity
          (mem (snd (display_hour false st (mkDisplay r hour_value)
                       (fetch_hour false hour) on off s)))
          (backBuffer (snd (display_hour false st (mkDisplay r hour_value)
                              (fetch_hour false hour) on off s))) x y
        = if (y =? r) && (4 <=? x)
          then (if Z.testbit (fetch_hour12 hour) (7 - x) then on else off)
          else intensity (mem s) (backBuffer s) x y)
  /\ (forall x y, 0 <= x < 8 -> 0 <= y < 8 ->
        intensity
          (mem (snd (display_hour true st (mkDisplay r hour_value)
                       (fetch_hour true hour) on off s)))
          (backBuffer (snd (display_hour true st (mkDisplay r hour_value)
                              (fetch_hour true hour) on off s))) x y
        = if (y =? r) && (3 <=? x)
          then (if Z.testbit hour (7 - x) then on else off)
          else intensity (mem s) (backBuffer s) x y).
Proof.
  intros Hwf Hh Hr Hon Hoff Hst.
  split; [apply fetch_hour12_range, Hh|].
  assert (E12 : display_hour false st (mkDisplay r hour_value)
                  (fetch_hour false hour) on off s
                = (Some (mkValue 4 8),
                   display_nobcd (mkDisplay r (mkValue 4 (2 ^ (4 - 1))))
                     (fetch_hour12 hour) on off s))
    by (destruct Hst as [-> | ->]; reflexivity).
  assert (E24 : snd (display_hour true st (mkDisplay r hour_value)
                       (fetch_hour true hour) on off s)
                = display_nobcd (mkDisplay r (mkValue 3 (2 ^ (5 - 1)))) hour on off s)
    by reflexivity.
  rewrite E12, E24. cbn [fst snd]. split; [reflexivity|].
  split; intros x y Hx Hy.
  - destruct (display_nobcd_intensity s 4 4 r (fetch_hour12 hour) on off)
      as (_ & H2 & H3); try assumption; try lia.
    rewrite H2, H3 by assumption.
    replace (x <? 4 + 4) with true by (symmetry; apply Z.ltb_lt; lia).
    rewrite andb_true_r.
    replace (4 + 4 - 1 - x) with (7 - x) by lia. reflexivity.
  - destruct (display_nobcd_intensity s 5 3 r hour on off)
      as (_ & H2 & H3); try assumption; try lia.
    rewrite H2, H3 by assumption.
    replace (x <? 3 + 5) with true by (symmetry; apply Z.ltb_lt; lia).
    rewrite andb_true_r.
    replace (3 + 5 - 1 - x) with (7 - x) by lia. reflexivity.
Qed.

Lemma display_hour_shows_hour_witness :
  fetch_hour12 15 = 3
  /\ fst (display_hour false None (mkDisplay 5 hour_value)
            (fetch_hour false 15) 255 32 (boot true)) = Some (mkValue 4 8).
Proof.
  split; [reflexivity|].
  apply (display_hour_shows_hour (boot true) None 15 5 255 32 (wf_boot true));
    unfold byte; first [lia | left; reflexivity].
Defined.

(** X19.  The AM/PM pair.  In 12-hour mode column 0 of the row is lit
    for the hours 0 to 11 and column 1 for the hours 12 to 23, the
    other one being cleared; in 24-hour mode display_ampm draws
    nothing. *)
Theorem display_ampm_shows_half
    (s : state) (hour r on off : Z) :
  wf s = true -> 0 <= r < 8 -> byte on -> byte off ->
  display_ampm true (mkDisplay r ampm_value) (fetch_ampm hour) on off s = s
  /\ forall x y, 0 <= x < 8 -> 0 <= y < 8 ->
       intensity
         (mem (display_ampm false (mkDisplay r ampm_value)
                 (fetch_ampm hour) on off s))
         (backBuffer (display_ampm false (mkDisplay r ampm_value)
                        (fetch_ampm hour) on off s)) x y
       = if (y =? r) && (x <? 2)
         then (if (x =? 0) then (if hour <? 12 then on else off)
               else (if hour <? 12 then off else on))
         else intensity (mem s) (backBuffer s) x y.
Proof.
  intros Hwf Hr Hon Hoff. split; [reflexivity|].
  intros x y Hx Hy. unfold display_ampm. cbn [negb].
  change ampm_value with (mkValue 0 (2 ^ (2 - 1))).
  destruct (display_nobcd_intensity s 2 0 r (fetch_ampm hour) on off)
    as (_ & H2 & H3); try assumption; try lia.
  rewrite H2, H3 by assumption.
  replace (0 <=? x) with true by (symmetry; apply Z.leb_le; lia).
  rewrite andb_true_r. change (0 + 2) with 2.
  destruct (y =? r); [|reflexivity]. cbn [andb].
  destruct (Z.ltb_spec x 2) as [Hlt | Hge]; [|reflexivity].
  unfold fetch_ampm.
  assert (x = 0 \/ x = 1) as [-> | ->] by lia;
    destruct (hour <? 12); reflexivity.
Qed.

Lemma display_ampm_shows_half_witness :
  display_ampm true (mkDisplay 5 ampm_value) (fetch_ampm 9) 255 32 (boot true)
  = boot true.
Proof.
  apply (display_ampm_shows_half (boot true) 9 5 255 32 (wf_boot true));
    unfold byte; lia.
Defined.

(** ** The seconds blinker *)




(** ** The loops of the face end *)

(** The fuel given to the two loops is never used up: a byte mask is 0
    after 8 shifts, and with more fuel the result is the same. *)
Lemma nobcd_loop_fuel row value on off n fuel :
  forall mask col s, 0 <= mask < 2 ^ Z.of_nat fuel ->
  nobcd_loop (fuel + n) mask col row value on off s
  = nobcd_loop fuel mask col row value on off s.
Proof.
  induction fuel as [|fuel IH]; intros mask col s Hmask.
  - change (2 ^ Z.of_nat 0) with 1 in Hmask. replace mask with 0 by lia.
    destruct n; reflexivity.
  - cbn [Nat.add nobcd_loop]. destruct (mask =? 0); [reflexivity|].
    apply IH, shiftr1_bound, Hmask.
Qed.

Lemma bcd_loop_fuel row value digit on off n fuel :
  forall mask col s, 0 <= mask < 2 ^ Z.of_nat fuel ->
  bcd_loop (fuel + n) mask col row value digit on off s
  = bcd_loop fuel mask col row value digit on off s.
Proof.
  induction fuel as [|fuel IH]; intros mask col s Hmask.
  - change (2 ^ Z.of_nat 0) with 1 in Hmask. replace mask with 0 by lia.
    destruct n; reflexivity.
  - cbn [Nat.add bcd_loop]. destruct (mask =? 0); [reflexivity|].
    apply IH, shiftr1_bound, Hmask.
Qed.
